(** * help.py: the admin token minter

    A shallow embedding of [src/help.py] and of the library operations
    it calls, with the properties of the specification stated over it.

    Definitions:
    - [Py]         the fragment of Python the script uses: strings,
                   dicts, exceptions, and the interpreter state (clock
                   reads, standard output);
    - [Datetime]   [datetime.utcnow], [timedelta], [+], [.timestamp()],
                   [int], [str(datetime)];
    - [Bytes], [Sha256], [Hmac], [Base64url], [Json], [Jwt]
                   the signing primitive [jwt.encode] and its inverse;
    - [Help]       the script itself, line by line, on a host whose
                   standard output takes every line and whose clock
                   stays where dates are in range and timestamps exact;
    - [Double], [Strict], [StrictHelp]
                   the script once more without those assumptions: the
                   range checks of [datetime], the double behind
                   [.timestamp()], and a [print] that can raise.

    Proofs:
    - [Vectors]    known answers of the hash, the MAC, the encodings;
    - [StrFacts], [HmacFacts], [Base64urlFacts], [JsonFacts], [JwtFacts]
                   round trips of the encodings;
    - [DoubleFacts] where [int(s + us / 1e6)] is exact;
    - [Spec], [Scenario], [HelpFacts], [StrictFacts]
                   the report layout, the hosts the properties are tried
                   on, how a run can end, and that [Help] is [StrictHelp]
                   on the hosts it assumes;
    - [Properties], [Coverage]
                   the properties. *)

From Stdlib Require Import ZArith NArith List String Ascii Bool Lia.
From Stdlib Require Import DecimalString DecimalZ DecimalFacts.
Import ListNotations.

Local Open Scope string_scope.
Local Open Scope Z_scope.

(* ================================================================== *)
(** * The Python fragment *)

Module Py.

(** A [str] is kept as its UTF-8 bytes. *)
Definition str := string.

(** [s * n] on strings. *)
Fixpoint str_mul (s : str) (n : nat) : str :=
  match n with
  | O => ""
  | S n' => s ++ str_mul s n'
  end.

(** The values a claims mapping holds. *)
Inductive value :=
| VStr (s : str)
| VInt (z : Z).

(** A [dict] keeps insertion order, and [json.dumps] follows it: an
    association list, first binding of a key wins on lookup. *)
Definition dict := list (str * value).

Fixpoint lookup (d : dict) (k : str) : option value :=
  match d with
  | [] => None
  | (k', v) :: d' => if String.eqb k' k then Some v else lookup d' k
  end.

Definition keys (d : dict) : list str := map fst d.

(** Exceptions that can escape the script.  [SigningFailure] is the
    specification's name for whatever [jwt.encode] raises. *)
Inductive exn :=
| KeyError (key : str)
| SigningFailure (reason : str).

(** What the interpreter is run in.  [clock n] is the instant the
    system clock shows at the [n]-th time it is read in this run, in
    microseconds since 1970-01-01T00:00:00Z; readings are taken to lie
    where [datetime] can hold them with a year to spare and where a
    double still separates microseconds (true of any clock until the
    year 2242).  [mktime] is the platform's conversion for the host's
    local time zone: it takes the number of seconds from
    1970-01-01 00:00:00 to a wall-clock value read as local time and
    gives POSIX seconds. *)
Record world := World {
  clock  : nat -> N;
  mktime : Z -> Z
}.

(** Interpreter state: how often the clock was read, and the lines
    written to standard output so far (one per [print]). *)
Record state := State {
  reads  : nat;
  stdout : list str
}.

Definition initial : state := {| reads := 0; stdout := [] |}.

Inductive res (A : Type) :=
| Ok (a : A)
| Raise (e : exn).
Arguments Ok {A} a.
Arguments Raise {A} e.

(** Computations: state passing, an exception ends the run with the
    state reached so far. *)
Definition M (A : Type) := state -> res A * state.

Definition ret {A} (a : A) : M A := fun s => (Ok a, s).

Definition bind {A B} (m : M A) (k : A -> M B) : M B :=
  fun s =>
    match m s with
    | (Ok a, s') => k a s'
    | (Raise e, s') => (Raise e, s')
    end.

Definition raise {A} (e : exn) : M A := fun s => (Raise e, s).

Definition lift {A} (r : exn + A) : M A :=
  match r with
  | inl e => raise e
  | inr a => ret a
  end.

(** [print(s)]: one more line on standard output, which is taken to
    encode every character (the script prints some outside ASCII). *)
Definition print (s : str) : M unit :=
  fun st => (Ok tt, {| reads := reads st; stdout := stdout st ++ [s] |}).

(** [d[k]] *)
Definition getitem (d : dict) (k : str) : M value :=
  match lookup d k with
  | Some v => ret v
  | None => raise (KeyError k)
  end.

(** How a finished run looks from outside the process. *)
Definition exit_status {A} (r : res A) : Z :=
  match r with
  | Ok _ => 0
  | Raise _ => 1
  end.

(** The traceback's last line on standard error, if any. *)
Definition diagnostic {A} (r : res A) : option str :=
  match r with
  | Ok _ => None
  | Raise (KeyError k) => Some ("KeyError: '" ++ k ++ "'")
  | Raise (SigningFailure why) => Some why
  end.

End Py.

Import Py.

Declare Scope py_scope.
Delimit Scope py_scope with py.
Notation "x <- m ;; k" := (bind m (fun x => k))
(at level 61, m at next level, right associativity) : py_scope.
Notation "m ;;; k" := (bind m (fun _ => k))
(at level 61, right associativity) : py_scope.
Local Open Scope py_scope.

(* ================================================================== *)
(** * datetime *)

Module Datetime.

Definition us_per_s : Z := 1000000.

(** A naive [datetime] (no tzinfo), as the count of microseconds from
    1970-01-01 00:00:00 on its own calendar. *)
Record datetime := Naive { naive_us : Z }.

Record timedelta := Delta { delta_us : Z }.

(** [timedelta(days=d)] *)
Definition timedelta_days (d : Z) : timedelta :=
  {| delta_us := d * 86400 * us_per_s |}.

(** [dt + td] *)
Definition add (dt : datetime) (td : timedelta) : datetime :=
  {| naive_us := naive_us dt + delta_us td |}.

(** [datetime.utcnow()]: reads the clock once and returns the UTC wall
    time as a naive value. *)
Definition utcnow (w : world) : M datetime :=
  fun st =>
    (Ok {| naive_us := Z.of_N (clock w (reads st)) |},
     {| reads := S (reads st); stdout := stdout st |}).

(** [dt.timestamp()] for a naive [dt]: the value is read as LOCAL time,
    [mktime] of its whole seconds plus its microseconds.  Python returns
    a float; here it is the exact count of microseconds. *)
Definition timestamp_us (w : world) (dt : datetime) : Z :=
  mktime w (naive_us dt / us_per_s) * us_per_s + naive_us dt mod us_per_s.

(** [int(x)] on a float of seconds: truncation toward zero. *)
Definition int_of_seconds (us : Z) : Z := Z.quot us us_per_s.

(** [int(dt.timestamp())] *)
Definition int_timestamp (w : world) (dt : datetime) : Z :=
  int_of_seconds (timestamp_us w dt).

(** ** [str(dt)] *)

(** Proleptic Gregorian date of a day number (days from 1970-01-01). *)
Definition civil_from_days (z : Z) : Z * Z * Z :=
  let z := z + 719468 in
  let era := z / 146097 in
  let doe := z - era * 146097 in
  let yoe := (doe - doe / 1460 + doe / 36524 - doe / 146096) / 365 in
  let doy := doe - (365 * yoe + yoe / 4 - yoe / 100) in
  let mp := (5 * doy + 2) / 153 in
  let d := doy - (153 * mp + 2) / 5 + 1 in
  let m := if mp <? 10 then mp + 3 else mp - 9 in
  let y := yoe + era * 400 + (if m <=? 2 then 1 else 0) in
  (y, m, d).

(** ["%0<width>d" % n], for [n >= 0]. *)
Definition zero_padded (width : nat) (n : Z) : str :=
  let digits := NilZero.string_of_uint (N.to_uint (Z.to_N n)) in
  str_mul "0" (width - String.length digits) ++ digits.

(** [str(dt)] is [dt.isoformat(sep=' ')]: the fraction is printed only
    when the microsecond field is not zero. *)
Definition to_str (dt : datetime) : str :=
  let secs := naive_us dt / us_per_s in
  let us := naive_us dt mod us_per_s in
  let '(y, m, d) := civil_from_days (secs / 86400) in
  let sod := secs mod 86400 in
  zero_padded 4 y ++ "-" ++ zero_padded 2 m ++ "-" ++ zero_padded 2 d ++ " "
  ++ zero_padded 2 (sod / 3600) ++ ":" ++ zero_padded 2 (sod mod 3600 / 60)
  ++ ":" ++ zero_padded 2 (sod mod 60)
  ++ (if us =? 0 then "" else "." ++ zero_padded 6 us).

End Datetime.

(* ================================================================== *)
(** * Byte strings *)

Module Bytes.

Local Open Scope list_scope.

(** A byte is a [Z] in [0, 256); [bytes] holds them in order. *)
Definition bytes := list Z.

Definition of_str (s : str) : bytes :=
  map (fun c => Z.of_N (N_of_ascii c)) (list_ascii_of_string s).

Definition to_str (b : bytes) : str :=
  string_of_list_ascii (map (fun z => ascii_of_N (Z.to_N z)) b).

(** [n] as [len] big-endian bytes. *)
Fixpoint big_endian (len : nat) (n : Z) : bytes :=
  match len with
  | O => []
  | S len' => big_endian len' (n / 256) ++ [n mod 256]
  end.

Definition of_big_endian (b : bytes) : Z :=
  fold_left (fun acc x => acc * 256 + x) b 0.

(** Consecutive blocks of [size] elements; [fuel] bounds their number. *)
Fixpoint blocks {A} (fuel size : nat) (l : list A) : list (list A) :=
  match fuel, l with
  | O, _ | _, [] => []
  | S fuel', _ => firstn size l :: blocks fuel' size (skipn size l)
  end.

End Bytes.

(* ================================================================== *)
(** * SHA-256 (FIPS 180-4) *)

Module Sha256.

Local Open Scope list_scope.

Import Bytes.

Definition w32 (x : Z) : Z := x mod 2 ^ 32.
Definition add32 (x y : Z) : Z := w32 (x + y).
Definition rotr (n x : Z) : Z :=
  Z.lor (Z.shiftr x n) (w32 (Z.shiftl x (32 - n))).
Definition not32 (x : Z) : Z := Z.lxor x (2 ^ 32 - 1).

Definition Ch (x y z : Z) := Z.lxor (Z.land x y) (Z.land (not32 x) z).
Definition Maj (x y z : Z) :=
  Z.lxor (Z.lxor (Z.land x y) (Z.land x z)) (Z.land y z).
Definition Sigma0 x := Z.lxor (Z.lxor (rotr 2 x) (rotr 13 x)) (rotr 22 x).
Definition Sigma1 x := Z.lxor (Z.lxor (rotr 6 x) (rotr 11 x)) (rotr 25 x).
Definition sigma0 x := Z.lxor (Z.lxor (rotr 7 x) (rotr 18 x)) (Z.shiftr x 3).
Definition sigma1 x := Z.lxor (Z.lxor (rotr 17 x) (rotr 19 x)) (Z.shiftr x 10).

(** The constants are the leading fractional bits of the square and
    cube roots of the first primes, computed here rather than listed. *)
Definition is_prime (p : Z) : bool :=
  forallb (fun d => negb (p mod d =? 0))
          (map Z.of_nat (seq 2 (Z.to_nat p - 2))).

Definition primes64 : list Z :=
  Eval vm_compute in filter is_prime (map Z.of_nat (seq 2 310)).

(** Largest [r] below [2^bits] with [r^3 <= n]. *)
Fixpoint cube_root (bits : nat) (n r : Z) : Z :=
  match bits with
  | O => r
  | S b =>
      let r' := r + 2 ^ Z.of_nat b in
      cube_root b n (if r' * r' * r' <=? n then r' else r)
  end.

Definition K : list Z :=
  Eval vm_compute in
    map (fun p => w32 (cube_root 40 (p * 2 ^ 96) 0)) primes64.

Definition H0 : list Z :=
  Eval vm_compute in
    map (fun p => w32 (Z.sqrt (p * 2 ^ 64))) (firstn 8 primes64).

(** Padding: a one bit, zeros, and the bit List.length on 64 bits, up to a
    multiple of 64 bytes. *)
Definition pad (msg : bytes) : bytes :=
  let len := Z.of_nat (List.length msg) in
  let zeros := (55 - len) mod 64 in
  msg ++ [128] ++ repeat 0 (Z.to_nat zeros) ++ big_endian 8 (8 * len).

(** The message schedule, newest word first. *)
Fixpoint extend (n : nat) (rev_w : list Z) : list Z :=
  match n with
  | O => rev_w
  | S n' =>
      let at_back i := nth i rev_w 0 in
      let x := add32 (add32 (sigma1 (at_back 1%nat)) (at_back 6%nat))
                     (add32 (sigma0 (at_back 14%nat)) (at_back 15%nat)) in
      extend n' (x :: rev_w)
  end.

Definition schedule (block : bytes) : list Z :=
  rev (extend 48 (rev (map of_big_endian (blocks 16 4 block)))).

Definition round (st : list Z) (kw : Z * Z) : list Z :=
  match st with
  | [a; b; c; d; e; f; g; h] =>
      let t1 := add32 (add32 (add32 h (Sigma1 e)) (add32 (Ch e f g) (fst kw)))
                      (snd kw) in
      let t2 := add32 (Sigma0 a) (Maj a b c) in
      [add32 t1 t2; a; b; c; add32 d t1; e; f; g]
  | _ => st
  end.

Definition compress (h : list Z) (block : bytes) : list Z :=
  map (fun xy => add32 (fst xy) (snd xy))
      (combine h (fold_left round (combine K (schedule block)) h)).

Definition digest (msg : bytes) : bytes :=
  let p := pad msg in
  flat_map (big_endian 4)
           (fold_left compress (blocks (List.length p) 64 p) H0).

End Sha256.

(* ================================================================== *)
(** * HMAC (RFC 2104) with SHA-256 *)

Module Hmac.

Local Open Scope list_scope.

Import Bytes.

Definition block_size : nat := 64.

(** A key longer than a block is hashed first; the key is then filled
    with zero bytes up to the block size. *)
Definition key_block (key : bytes) : bytes :=
  let k := if (block_size <? List.length key)%nat then Sha256.digest key else key in
  k ++ repeat 0 (block_size - List.length k).

Definition xor_with (pad : Z) (b : bytes) : bytes := map (Z.lxor pad) b.

Definition hmac_sha256 (key msg : bytes) : bytes :=
  let k := key_block key in
  Sha256.digest (xor_with 92 k ++ Sha256.digest (xor_with 54 k ++ msg)).

End Hmac.

(* ================================================================== *)
(** * base64url without padding (RFC 7515, appendix C) *)

Module Base64url.

Local Open Scope N_scope.

Definition alphabet : str :=
  "ABCDEFGHIJKLMNOPQRSTUVWXYZabcdefghijklmnopqrstuvwxyz0123456789-_".

Definition char_of (n : N) : ascii :=
  match String.get (N.to_nat n) alphabet with
  | Some c => c
  | None => "="%char
  end.

Definition sextet_of (c : ascii) : option N :=
  let n := N_of_ascii c in
  if (65 <=? n) && (n <=? 90) then Some (n - 65)
  else if (97 <=? n) && (n <=? 122) then Some (n - 71)
  else if (48 <=? n) && (n <=? 57) then Some (n + 4)
  else if n =? 45 then Some 62
  else if n =? 95 then Some 63
  else None.

(** Three bytes give four characters; a tail of one or two bytes gives
    two or three, and no [=] is written. *)
Fixpoint encode (s : str) : str :=
  match s with
  | EmptyString => EmptyString
  | String a EmptyString =>
      let n := N_of_ascii a * 16 in
      String (char_of (n / 64)) (String (char_of (n mod 64)) EmptyString)
  | String a (String b EmptyString) =>
      let n := (N_of_ascii a * 256 + N_of_ascii b) * 4 in
      String (char_of (n / 4096))
        (String (char_of (n / 64 mod 64))
           (String (char_of (n mod 64)) EmptyString))
  | String a (String b (String c rest)) =>
      let n := N_of_ascii a * 65536 + N_of_ascii b * 256 + N_of_ascii c in
      String (char_of (n / 262144))
        (String (char_of (n / 4096 mod 64))
           (String (char_of (n / 64 mod 64))
              (String (char_of (n mod 64)) (encode rest))))
  end.

(** The inverse; a character outside the alphabet or a lone trailing
    character is an error. *)
Fixpoint decode (s : str) : option str :=
  match s with
  | EmptyString => Some EmptyString
  | String _ EmptyString => None
  | String a (String b EmptyString) =>
      match sextet_of a, sextet_of b with
      | Some x, Some y =>
          Some (String (ascii_of_N ((x * 64 + y) / 16)) EmptyString)
      | _, _ => None
      end
  | String a (String b (String c EmptyString)) =>
      match sextet_of a, sextet_of b, sextet_of c with
      | Some x, Some y, Some z =>
          let n := (x * 4096 + y * 64 + z) / 4 in
          Some (String (ascii_of_N (n / 256))
                  (String (ascii_of_N (n mod 256)) EmptyString))
      | _, _, _ => None
      end
  | String a (String b (String c (String d rest))) =>
      match sextet_of a, sextet_of b, sextet_of c, sextet_of d, decode rest with
      | Some x, Some y, Some z, Some t, Some tail =>
          let n := x * 262144 + y * 4096 + z * 64 + t in
          Some (String (ascii_of_N (n / 65536))
                  (String (ascii_of_N (n / 256 mod 256))
                     (String (ascii_of_N (n mod 256)) tail)))
      | _, _, _, _, _ => None
      end
  end.

End Base64url.

(* ================================================================== *)
(** * JSON, compact form *)

Module Json.

(** The fragment a claims mapping needs: one object whose values are
    strings and integers, written as
    [json.dumps(d, separators=(",", ":"))] writes it.  In strings the
    quote and the backslash are escaped; every other byte is passed
    through (the strings of this program are printable ASCII, where that
    is what Python does). *)

Definition quote : ascii := "034"%char.
Definition backslash : ascii := "\"%char.

Fixpoint escape (s : str) : str :=
  match s with
  | EmptyString => EmptyString
  | String c rest =>
      if (Ascii.eqb c quote || Ascii.eqb c backslash)%bool
      then String backslash (String c (escape rest))
      else String c (escape rest)
  end.

Definition dump_string (s : str) : str :=
  String quote (escape s ++ String quote EmptyString).

Definition dump_int (z : Z) : str := NilZero.string_of_int (Z.to_int z).

Definition dump_value (v : value) : str :=
  match v with
  | VStr s => dump_string s
  | VInt z => dump_int z
  end.

Definition dump_member (kv : str * value) : str :=
  dump_string (fst kv) ++ ":" ++ dump_value (snd kv).

Fixpoint dump_members (d : dict) : str :=
  match d with
  | [] => ""
  | [kv] => dump_member kv
  | kv :: d' => dump_member kv ++ "," ++ dump_members d'
  end.

(** [json.dumps] *)
Definition dumps (d : dict) : str := "{" ++ dump_members d ++ "}".

(** ** Reading it back *)

(** The text after an opening quote, up to the closing one. *)
Fixpoint parse_string_body (s : str) : option (str * str) :=
  match s with
  | EmptyString => None
  | String c rest =>
      if Ascii.eqb c quote then Some (EmptyString, rest)
      else if Ascii.eqb c backslash then
        match rest with
        | String e rest' =>
            if (Ascii.eqb e quote || Ascii.eqb e backslash)%bool then
              match parse_string_body rest' with
              | Some (body, after) => Some (String e body, after)
              | None => None
              end
            else None
        | EmptyString => None
        end
      else
        match parse_string_body rest with
        | Some (body, after) => Some (String c body, after)
        | None => None
        end
  end.

Definition parse_string (s : str) : option (str * str) :=
  match s with
  | String c rest => if Ascii.eqb c quote then parse_string_body rest else None
  | EmptyString => None
  end.

Definition is_num_char (c : ascii) : bool :=
  let n := N_of_ascii c in
  ((n =? 45) || ((48 <=? n) && (n <=? 57)))%N.

(** The longest prefix made of a sign and digits, and what follows. *)
Fixpoint span_num (s : str) : str * str :=
  match s with
  | EmptyString => (EmptyString, EmptyString)
  | String c rest =>
      if is_num_char c
      then let '(num, after) := span_num rest in (String c num, after)
      else (EmptyString, s)
  end.

Definition parse_int (s : str) : option (Z * str) :=
  let '(num, after) := span_num s in
  match NilZero.int_of_string num with
  | Some i => Some (Z.of_int i, after)
  | None => None
  end.

Definition parse_value (s : str) : option (value * str) :=
  match s with
  | String c _ =>
      if Ascii.eqb c quote
      then match parse_string s with
           | Some (x, after) => Some (VStr x, after)
           | None => None
           end
      else match parse_int s with
           | Some (z, after) => Some (VInt z, after)
           | None => None
           end
  | EmptyString => None
  end.

(** One member, then a comma and more members or the closing brace. *)
Fixpoint parse_members (fuel : nat) (s : str) : option (dict * str) :=
  match fuel with
  | O => None
  | S fuel' =>
      match parse_string s with
      | Some (k, String ":" after_colon) =>
          match parse_value after_colon with
          | Some (v, String "," more) =>
              match parse_members fuel' more with
              | Some (d, after) => Some ((k, v) :: d, after)
              | None => None
              end
          | Some (v, String "}" after) => Some ([(k, v)], after)
          | _ => None
          end
      | _ => None
      end
  end.

(** [json.loads], on this fragment. *)
Definition loads (s : str) : option dict :=
  match s with
  | String "{" (String "}" EmptyString) => Some []
  | String "{" body =>
      match parse_members (String.length body) body with
      | Some (d, EmptyString) => Some d
      | _ => None
      end
  | _ => None
  end.

End Json.

(* ================================================================== *)
(** * The signing primitive *)

Module Jwt.

(** The script imports [jwt] (PyJWT); the library is not among the
    sources.  The specification describes the primitive as a standard
    compact signed-token encoding, header + claims + signature under the
    shared secret and the declared algorithm: the JWS compact
    serialization of RFC 7515, with HMAC-SHA256 for [HS256], the one
    algorithm modelled here. *)

Definition header (alg : str) : dict :=
  [ ("alg", VStr alg); ("typ", VStr "JWT") ].

Definition supported (alg : str) : bool := String.eqb alg "HS256".

Definition signing_input (payload : dict) (alg : str) : str :=
  Base64url.encode (Json.dumps (header alg)) ++ "."
  ++ Base64url.encode (Json.dumps payload).

(** The HS256 tag of a message under a secret, as a byte string
    ([hmac.new(key, msg, sha256).digest()]). *)
Definition sign (key msg : str) : str :=
  Bytes.to_str (Hmac.hmac_sha256 (Bytes.of_str key) (Bytes.of_str msg)).

(** Modelled from the spec: [jwt.encode(payload, key, algorithm=alg)],
    which is not among the sources.  Section 4.1 has it fail when the
    algorithm is not supported or the secret is empty, and section 4.1(2)
    has it return header, claims and signature otherwise. *)
Definition encode (payload : dict) (key alg : str) : exn + str :=
  if negb (supported alg) then inl (SigningFailure "Algorithm not supported")
  else if String.eqb key "" then inl (SigningFailure "The secret is empty")
  else
    let input := signing_input payload alg in
    inr (input ++ "." ++ Base64url.encode (sign key input)).

Inductive error :=
| DecodeError (why : str)
| InvalidAlgorithmError
| InvalidSignatureError.

(** [s.rsplit(".", 1)]: cut at the last dot. *)
Fixpoint rsplit_dot (s : str) : option (str * str) :=
  match s with
  | EmptyString => None
  | String c rest =>
      match rsplit_dot rest with
      | Some (a, b) => Some (String c a, b)
      | None => if Ascii.eqb c "." then Some (EmptyString, rest) else None
      end
  end.

(** [s.split(".", 1)]: cut at the first dot. *)
Fixpoint split_dot (s : str) : option (str * str) :=
  match s with
  | EmptyString => None
  | String c rest =>
      if Ascii.eqb c "." then Some (EmptyString, rest)
      else match split_dot rest with
           | Some (a, b) => Some (String c a, b)
           | None => None
           end
  end.

Definition mem (alg : str) (algorithms : list str) : bool :=
  existsb (String.eqb alg) algorithms.

(** Modelled from the spec: [jwt.decode(token, key, algorithms=...)],
    which is not among the sources and which the script never calls; the
    properties of section 8 decode with it.  It cuts the token at its
    dots, checks the header's algorithm against the ones allowed,
    recomputes the tag under [key] and compares, then reads the claims.
    Checks of [exp] and [iat] against the clock of whoever decodes are
    left out. *)
Definition decode (token key : str) (algorithms : list str) : error + dict :=
  match rsplit_dot token with
  | None => inl (DecodeError "Not enough segments")
  | Some (input, crypto_segment) =>
  match split_dot input with
  | None => inl (DecodeError "Not enough segments")
  | Some (header_segment, payload_segment) =>
  match Base64url.decode header_segment with
  | None => inl (DecodeError "Invalid header padding")
  | Some header_text =>
  match Json.loads header_text with
  | None => inl (DecodeError "Invalid header string")
  | Some hdr =>
  match Base64url.decode payload_segment with
  | None => inl (DecodeError "Invalid payload padding")
  | Some payload_text =>
  match Base64url.decode crypto_segment with
  | None => inl (DecodeError "Invalid crypto padding")
  | Some signature =>
  match lookup hdr "alg" with
  | Some (VStr alg) =>
      if negb (mem alg algorithms && supported alg)
      then inl InvalidAlgorithmError
      else if negb (String.eqb signature (sign key input))
      then inl InvalidSignatureError
      else match Json.loads payload_text with
           | Some payload => inr payload
           | None => inl (DecodeError "Invalid payload string")
           end
  | _ => inl InvalidAlgorithmError
  end end end end end end end.

End Jwt.

(* ================================================================== *)
(** * The script *)

Module Help.

Import Datetime.

(** Lines 5-6. *)
Definition secret_key : str :=
  "your_super_secret_jwt_key_here_make_it_long_and_secure_2024".
Definition algorithm : str := "HS256".

(** Lines 9-14. *)
Definition user_data : dict :=
  [ ("user_id", VStr "admin");
    ("username", VStr "admin@xeno.com");
    ("email", VStr "admin@xeno.com");
    ("role", VStr "admin") ].

(** An f-string field of a value. *)
Definition fmt (v : value) : str :=
  match v with
  | VStr s => s
  | VInt z => NilZero.string_of_int (Z.to_int z)
  end.

Section Script.

(** The host the script runs on. *)
Variable w : world.

(** [jwt.encode(payload, key, algorithm=...)]: the signing primitive,
    which either raises or returns the token. *)
Variable jwt_encode : dict -> str -> str -> exn + str.

(** The two module constants of lines 5-6, as the script reads them. *)
Variables (the_secret the_algorithm : str).

(** Lines 17-27: the two clock reads and the claims mapping. *)
Definition claims : M (datetime * datetime * dict) :=
  now <- utcnow w ;;
  let expiration_time := add now (timedelta_days 365) in
  issued_at <- utcnow w ;;
  sub <- getitem user_data "user_id" ;;
  email <- getitem user_data "email" ;;
  username <- getitem user_data "username" ;;
  role <- getitem user_data "role" ;;
  ret (expiration_time, issued_at,
       [ ("sub", sub);
         ("email", email);
         ("username", username);
         ("role", role);
         ("exp", VInt (int_timestamp w expiration_time));
         ("iat", VInt (int_timestamp w issued_at)) ]).

(** Lines 32-48. *)
Definition report (token : str) (issued_at expiration_time : datetime)
  : M unit :=
  print (str_mul "=" 60) ;;;
  print "🔐 FRESH JWT TOKEN GENERATED" ;;;
  print (str_mul "=" 60) ;;;
  print ("Token: " ++ token) ;;;
  print "" ;;;
  print "📅 Token Details:" ;;;
  print ("• Issued At: " ++ to_str issued_at) ;;;
  print ("• Expires At: " ++ to_str expiration_time) ;;;
  print "• Valid For: 365 days" ;;;
  email <- getitem user_data "email" ;;
  print ("• User: " ++ fmt email) ;;;
  role <- getitem user_data "role" ;;
  print ("• Role: " ++ fmt role) ;;;
  print "" ;;;
  print "🚨 IMPORTANT:" ;;;
  print "1. Use this as your ADMIN_JWT_TOKEN in Railway environment variables" ;;;
  print "2. Make sure JWT_SECRET matches the secret_key used here" ;;;
  print "3. Remove the old expired ADMIN_JWT_TOKEN from Railway" ;;;
  print (str_mul "=" 60).

(** The whole module body; the token is returned for inspection. *)
Definition script : M str :=
  c <- claims ;;
  let '(expiration_time, issued_at, payload) := c in
  token <- lift (jwt_encode payload the_secret the_algorithm) ;;
  report token issued_at expiration_time ;;;
  ret token.

Definition run : res str * state := script initial.

(** The claims mapping handed to the signing primitive. *)
Definition payload : dict :=
  match claims initial with
  | (Ok (_, _, p), _) => p
  | (Raise _, _) => []
  end.

(** The values bound to [issued_at] and [expiration_time]. *)
Definition issued_at : datetime :=
  match claims initial with
  | (Ok (_, t, _), _) => t
  | (Raise _, _) => Naive 0
  end.

Definition expiration_time : datetime :=
  match claims initial with
  | (Ok (t, _, _), _) => t
  | (Raise _, _) => Naive 0
  end.

End Script.

(** The script as shipped, run against the signing primitive. *)
Definition help_py (w : world) : res str * state :=
  run w Jwt.encode secret_key algorithm.

(** The token a run printed, if it got that far. *)
Definition minted (r : res str * state) : option str :=
  match fst r with
  | Ok token => Some token
  | Raise _ => None
  end.

(** An integer claim of a mapping. *)
Definition claim_int (d : dict) (k : str) : option Z :=
  match lookup d k with
  | Some (VInt z) => Some z
  | _ => None
  end.

(** ** Hosts *)

(** A clock that shows the same instant whenever it is read. *)
Definition frozen (t : N) : nat -> N := fun _ => t.

(** A host whose local time is UTC. *)
Definition utc : Z -> Z := fun t => t.

(** A host whose local time is [east] seconds ahead of UTC all year. *)
Definition fixed_offset (east : Z) : Z -> Z := fun t => t - east.

End Help.




(* ================================================================== *)
(** * Doubles *)

Module Double.

(** [.timestamp()] returns a float and [int] truncates it: the binary64
    arithmetic of [s + microsecond / 1e6], on exact fractions. *)

(** The nearest integer to [n / d], for [d > 0]; a tie goes to the even
    neighbour. *)
Definition nearest_even (n d : Z) : Z :=
  let q := n / d in
  let r := n mod d in
  if 2 * r <? d then q
  else if d <? 2 * r then q + 1
  else if Z.even q then q else q + 1.

(** A finite binary64 value, [mant * 2 ^ expo]. *)
Record double := Dyadic { mant : Z; expo : Z }.

(** [d * 2 ^ k <= n], for [k] of either sign. *)
Definition scaled_le (d k n : Z) : bool :=
  if 0 <=? k then d * 2 ^ k <=? n else d <=? n * 2 ^ (- k).

(** The largest [k] with [2 ^ k <= n / d], for [n > 0] and [d > 0]. *)
Definition log2_ratio (n d : Z) : Z :=
  let k := Z.log2 n - Z.log2 d in
  if scaled_le d k n then k else k - 1.

(** The binary64 value nearest to the rational [n / d], for [d > 0]:
    53 significant bits, ties to even, gradual underflow.  Values beyond
    the largest finite double do not occur here. *)
Definition round (n d : Z) : double :=
  if n =? 0 then Dyadic 0 0
  else
    let a := Z.abs n in
    let e := Z.max (log2_ratio a d - 52) (-1074) in
    let m := if 0 <=? e then nearest_even a (d * 2 ^ e)
             else nearest_even (a * 2 ^ (- e)) d in
    Dyadic (Z.sgn n * m) e.

(** A double as a fraction with a positive denominator. *)
Definition to_frac (x : double) : Z * Z :=
  if 0 <=? expo x then (mant x * 2 ^ expo x, 1) else (mant x, 2 ^ (- expo x)).

(** [float(z)] *)
Definition of_int (z : Z) : double := round z 1.

(** [x + y] *)
Definition add (x y : double) : double :=
  let '(a, b) := to_frac x in
  let '(c, d) := to_frac y in
  round (a * d + c * b) (b * d).

(** [x / y], for [y > 0]. *)
Definition div (x y : double) : double :=
  let '(a, b) := to_frac x in
  let '(c, d) := to_frac y in
  round (a * d) (b * c).

(** [int(x)]: truncation toward zero. *)
Definition to_int (x : double) : Z :=
  let '(a, b) := to_frac x in Z.quot a b.

End Double.

(* ================================================================== *)
(** * The script with the failure paths of its library calls *)

(** [Help] runs the script on a host whose standard output takes every
    line and whose clock stays where [datetime] arithmetic is in range
    and timestamps are exact.  This module drops those assumptions:
    [utcnow] and [+] check the range of [datetime], [.timestamp()] goes
    through a double, and [print] can raise. *)

Module Strict.

Import Datetime.

(** A host: the clock and time zone of [world], and what writing a text
    as line number [n] of standard output raises, if anything (the name
    of the exception: UnicodeEncodeError when the stream's encoding lacks
    a character of the text, OSError when the stream is broken).  A line
    that is refused leaves nothing of itself on the stream; the lines
    before it stay. *)
Record host := Host {
  env : world;
  stdout_fault : nat -> str -> option str
}.

Inductive error :=
| Of (e : exn)
| ValueError (why : str)
| OverflowError (why : str)
| OutputError (name : str).

Inductive res (A : Type) :=
| Ok (a : A)
| Raise (e : error).
Arguments Ok {A} a.
Arguments Raise {A} e.

Definition M (A : Type) := state -> res A * state.

Definition ret {A} (a : A) : M A := fun s => (Ok a, s).

Definition bind {A B} (m : M A) (k : A -> M B) : M B :=
  fun s =>
    match m s with
    | (Ok a, s') => k a s'
    | (Raise e, s') => (Raise e, s')
    end.

Definition raise {A} (e : error) : M A := fun s => (Raise e, s).

Definition lift {A} (r : exn + A) : M A :=
  match r with
  | inl e => raise (Of e)
  | inr a => ret a
  end.

(** [print(s)] *)
Definition print (h : host) (s : str) : M unit :=
  fun st =>
    match stdout_fault h (List.length (stdout st)) s with
    | Some name => (Raise (OutputError name), st)
    | None => (Ok tt, {| reads := reads st; stdout := stdout st ++ [s] |})
    end.

(** [d[k]] *)
Definition getitem (d : dict) (k : str) : M value :=
  match lookup d k with
  | Some v => ret v
  | None => raise (Of (KeyError k))
  end.

(** [datetime.min] and [datetime.max], in microseconds from 1970:
    0001-01-01 00:00:00 and 9999-12-31 23:59:59.999999. *)
Definition min_us : Z := -62135596800000000.
Definition max_us : Z := 253402300799999999.

(** [datetime.utcnow()] *)
Definition utcnow (h : host) : M datetime :=
  fun st =>
    let st' := {| reads := S (reads st); stdout := stdout st |} in
    let t := Z.of_N (clock (env h) (reads st)) in
    if max_us <? t then (Raise (ValueError "year 10000 is out of range"), st')
    else (Ok {| naive_us := t |}, st').

(** [dt + td] *)
Definition add (dt : datetime) (td : timedelta) : M datetime :=
  let t := naive_us dt + delta_us td in
  if (t <? min_us) || (max_us <? t)
  then raise (OverflowError "date value out of range")
  else ret {| naive_us := t |}.

(** [int(dt.timestamp())] for a naive [dt]: the host's conversion of the
    whole seconds, plus [microsecond / 1e6], as doubles. *)
Definition int_timestamp (h : host) (dt : datetime) : Z :=
  Double.to_int
    (Double.add (Double.of_int (mktime (env h) (naive_us dt / us_per_s)))
                (Double.div (Double.of_int (naive_us dt mod us_per_s))
                            (Double.of_int 1000000))).

Definition exit_status {A} (r : res A) : Z :=
  match r with
  | Ok _ => 0
  | Raise _ => 1
  end.

End Strict.

Declare Scope strict_scope.
Delimit Scope strict_scope with strict.
Notation "x <- m ;; k" := (Strict.bind m (fun x => k))
  (at level 61, m at next level, right associativity) : strict_scope.
Notation "m ;;; k" := (Strict.bind m (fun _ => k))
  (at level 61, right associativity) : strict_scope.

Module StrictHelp.

Import Datetime Help Strict.
Local Open Scope strict_scope.

Section Script.

Variable h : host.
Variable jwt_encode : dict -> str -> str -> exn + str.
Variables (the_secret the_algorithm : str).

(** Lines 17-27. *)
Definition claims : M (datetime * datetime * dict) :=
  now <- utcnow h ;;
  expiration_time <- add now (timedelta_days 365) ;;
  issued_at <- utcnow h ;;
  sub <- getitem user_data "user_id" ;;
  email <- getitem user_data "email" ;;
  username <- getitem user_data "username" ;;
  role <- getitem user_data "role" ;;
  ret (expiration_time, issued_at,
       [ ("sub", sub);
         ("email", email);
         ("username", username);
         ("role", role);
         ("exp", VInt (int_timestamp h expiration_time));
         ("iat", VInt (int_timestamp h issued_at)) ]).

(** Lines 32-48. *)
Definition report (token : str) (issued_at expiration_time : datetime)
  : M unit :=
  print h (str_mul "=" 60) ;;;
  print h "🔐 FRESH JWT TOKEN GENERATED" ;;;
  print h (str_mul "=" 60) ;;;
  print h ("Token: " ++ token) ;;;
  print h "" ;;;
  print h "📅 Token Details:" ;;;
  print h ("• Issued At: " ++ to_str issued_at) ;;;
  print h ("• Expires At: " ++ to_str expiration_time) ;;;
  print h "• Valid For: 365 days" ;;;
  email <- getitem user_data "email" ;;
  print h ("• User: " ++ fmt email) ;;;
  role <- getitem user_data "role" ;;
  print h ("• Role: " ++ fmt role) ;;;
  print h "" ;;;
  print h "🚨 IMPORTANT:" ;;;
  print h "1. Use this as your ADMIN_JWT_TOKEN in Railway environment variables" ;;;
  print h "2. Make sure JWT_SECRET matches the secret_key used here" ;;;
  print h "3. Remove the old expired ADMIN_JWT_TOKEN from Railway" ;;;
  print h (str_mul "=" 60).

(** The whole module body. *)
Definition script : M str :=
  c <- claims ;;
  let '(expiration_time, issued_at, payload) := c in
  token <- lift (jwt_encode payload the_secret the_algorithm) ;;
  report token issued_at expiration_time ;;;
  ret token.

Definition run : res str * state := script initial.

(** The claims mapping handed to the signing primitive, when the two
    clock lines did not raise. *)
Definition payload : option dict :=
  match claims initial with
  | (Ok (_, _, p), _) => Some p
  | (Raise _, _) => None
  end.

End Script.

(** ** Hosts *)

(** A standard output that takes every text (UTF-8). *)
Definition takes_all : nat -> str -> option str := fun _ _ => None.


(** Both clock lines stay inside the range of [datetime]. *)
Definition clock_in_range (h : host) : Prop :=
  Z.of_N (clock (env h) 0) + delta_us (timedelta_days 365) <= max_us
  /\ Z.of_N (clock (env h) 1) <= max_us.

End StrictHelp.

(* ================================================================== *)
(** * Known answers *)

Module Vectors.

Import Bytes.

(** FIPS 180-4, the one-block message. *)
Example sha256_abc :
  of_big_endian (Sha256.digest (of_str "abc"))
  = 0xba7816bf8f01cfea414140de5dae2223b00361a396177a9cb410ff61f20015ad.
Proof. vm_compute. reflexivity. Qed.

Example sha256_empty :
  of_big_endian (Sha256.digest [])
  = 0xe3b0c44298fc1c149afbf4c8996fb92427ae41e4649b934ca495991b7852b855.
Proof. vm_compute. reflexivity. Qed.

(** RFC 4231, test case 2. *)
Example hmac_sha256_jefe :
  of_big_endian
    (Hmac.hmac_sha256 (of_str "Jefe") (of_str "what do ya want for nothing?"))
  = 0x5bdcc146bf60754e6a042426089575c75a003f089d2739839dec58b964ec3843.
Proof. vm_compute. reflexivity. Qed.

(** RFC 4648, section 10, without the padding. *)
Example base64url_foobar :
  map Base64url.encode ["f"; "fo"; "foo"; "foob"; "fooba"; "foobar"]%string
  = ["Zg"; "Zm8"; "Zm9v"; "Zm9vYg"; "Zm9vYmE"; "Zm9vYmFy"]%string.
Proof. reflexivity. Qed.

(** The well-known example token of jwt.io. *)
Example jwt_known_token :
  Jwt.encode [ ("sub", VStr "1234567890"); ("name", VStr "John Doe");
               ("iat", VInt 1516239022) ]%string
             "your-256-bit-secret" "HS256"
  = inr ("eyJhbGciOiJIUzI1NiIsInR5cCI6IkpXVCJ9"
         ++ ".eyJzdWIiOiIxMjM0NTY3ODkwIiwibmFtZSI6IkpvaG4gRG9lIiwiaWF0IjoxNTE2MjM5MDIyfQ"
         ++ ".SflKxwRJSMeKKF2QT4fwpMeJf36POk6yJV_adQssw5c")%string.
Proof. vm_compute. reflexivity. Qed.

(** [str(datetime)], with and without a fraction. *)
Example str_of_datetime :
  Datetime.to_str (Datetime.Naive 1709210096000123) = "2024-02-29 12:34:56.000123"%string
  /\ Datetime.to_str (Datetime.Naive 1704067200000000) = "2024-01-01 00:00:00"%string.
Proof. split; reflexivity. Qed.

End Vectors.

(* ================================================================== *)
(** * Facts about HMAC *)

Module HmacFacts.

Import Bytes Hmac.
Local Open Scope list_scope.

(** A key shorter than a block and the same key with one more zero byte
    fill to the same block. *)
Lemma key_block_zero_byte key :
  (List.length key < block_size)%nat ->
  key_block (key ++ [0]) = key_block key.
Proof.
  intros Hlen. unfold key_block, block_size in *. cbv zeta.
  rewrite !length_app. cbn [List.length].
  destruct (Nat.ltb_spec 64 (List.length key + 1)) as [H|_]; [lia|].
  destruct (Nat.ltb_spec 64 (List.length key)) as [H|_]; [lia|].
  rewrite ?length_app. cbn [List.length].
  rewrite <- app_assoc. f_equal.
  replace (64 - List.length key)%nat with (S (64 - (List.length key + 1)))%nat by lia.
  reflexivity.
Qed.

Lemma hmac_zero_byte key msg :
  (List.length key < block_size)%nat ->
  hmac_sha256 (key ++ [0]) msg = hmac_sha256 key msg.
Proof. intros H. unfold hmac_sha256. now rewrite key_block_zero_byte. Qed.

Lemma of_str_append a b : of_str (a ++ b)%string = of_str a ++ of_str b.
Proof.
  unfold of_str. induction a as [|c a IH]; [reflexivity|].
  cbn. now rewrite <- IH.
Qed.

Lemma of_str_length s : List.length (of_str s) = String.length s.
Proof.
  unfold of_str. rewrite length_map.
  induction s as [|c s IH]; [reflexivity|]. cbn. now rewrite IH.
Qed.

(** The same, for the tag of a token. *)
Lemma sign_zero_byte key msg :
  (String.length key < block_size)%nat ->
  Jwt.sign (key ++ String (ascii_of_N 0) EmptyString)%string msg
  = Jwt.sign key msg.
Proof.
  intros H. unfold Jwt.sign. rewrite of_str_append.
  change (of_str (String (ascii_of_N 0) EmptyString)) with [0].
  rewrite hmac_zero_byte; [reflexivity|]. now rewrite of_str_length.
Qed.

End HmacFacts.

(* ================================================================== *)
(** * Facts about strings *)

Module StrFacts.

Lemma append_assoc (a b c : str) : ((a ++ b) ++ c = a ++ (b ++ c))%string.
Proof. induction a as [|x a IH]; simpl; [reflexivity | now rewrite IH]. Qed.

Lemma append_nil_r (a : str) : (a ++ "" = a)%string.
Proof. induction a as [|x a IH]; simpl; [reflexivity | now rewrite IH]. Qed.

Lemma length_append (a b : str) :
  String.length (a ++ b) = (String.length a + String.length b)%nat.
Proof. induction a as [|x a IH]; simpl; [reflexivity | now rewrite IH]. Qed.

(** Every character of a string passes a test. *)
Fixpoint all_chars (p : ascii -> bool) (s : str) : bool :=
  match s with
  | EmptyString => true
  | String c rest => p c && all_chars p rest
  end.

Lemma all_chars_append p a b :
  all_chars p (a ++ b) = all_chars p a && all_chars p b.
Proof.
  induction a as [|x a IH]; simpl; [reflexivity|].
  now rewrite IH, andb_assoc.
Qed.

Lemma all_chars_weaken (p q : ascii -> bool) s :
  (forall c, p c = true -> q c = true) ->
  all_chars p s = true -> all_chars q s = true.
Proof.
  intros Hpq. induction s as [|x s IH]; simpl; [reflexivity|].
  intros H. apply andb_true_iff in H as [Hx Hs].
  now rewrite (Hpq _ Hx), IH.
Qed.

End StrFacts.

(* ================================================================== *)
(** * Facts about base64url *)

Module Base64urlFacts.

Import Base64url StrFacts.
Local Open Scope N_scope.

Definition in_alphabet (c : ascii) : bool :=
  match sextet_of c with Some _ => true | None => false end.

(** The sixty-four cases, by evaluation. *)
Lemma sextet_table :
  forallb (fun n => match sextet_of (char_of n) with
                    | Some m => n =? m
                    | None => false
                    end)
          (map N.of_nat (seq 0 64)) = true.
Proof. vm_compute. reflexivity. Qed.

Lemma sextet_of_char_of n : n < 64 -> sextet_of (char_of n) = Some n.
Proof.
  intros Hn.
  pose proof sextet_table as T.
  rewrite forallb_forall in T.
  specialize (T n).
  assert (Hin : In n (map N.of_nat (seq 0 64))).
  { apply in_map_iff. exists (N.to_nat n). split; [apply N2Nat.id|].
    apply in_seq. lia. }
  specialize (T Hin).
  destruct (sextet_of (char_of n)) as [m|]; [|discriminate].
  apply N.eqb_eq in T. now subst.
Qed.

Lemma char_of_in_alphabet n : n < 64 -> in_alphabet (char_of n) = true.
Proof. intros Hn. unfold in_alphabet. now rewrite sextet_of_char_of. Qed.

(** What [encode] writes stays inside the alphabet. *)
Lemma encode_in_alphabet s : all_chars in_alphabet (encode s) = true.
Proof.
  enough (H : all_chars in_alphabet (encode s) = true
              /\ (forall a, all_chars in_alphabet (encode (String a s)) = true)
              /\ (forall a b,
                     all_chars in_alphabet (encode (String a (String b s))) = true))
    by apply H.
  induction s as [|c s (IH0 & IH1 & IH2)].
  - repeat split; intros; cbn [encode all_chars];
      pose proof (N_ascii_bounded a);
      try pose proof (N_ascii_bounded b);
      rewrite ?char_of_in_alphabet; try reflexivity;
      try (apply N.mod_lt; lia);
      try (apply N.Div0.div_lt_upper_bound; lia).
  - split; [apply IH1|]. split; [intro a; apply IH2|].
    intros a b. cbn [encode all_chars].
    pose proof (N_ascii_bounded a). pose proof (N_ascii_bounded b).
    pose proof (N_ascii_bounded c).
    rewrite IH0, ?char_of_in_alphabet; try reflexivity;
      try (apply N.mod_lt; lia);
      try (apply N.Div0.div_lt_upper_bound; lia).
Qed.

(** Bit-packing arithmetic of the three group sizes. *)
Lemma pack3 a b c :
  a < 256 -> b < 256 -> c < 256 ->
  let n := a * 65536 + b * 256 + c in
  let m := n / 262144 * 262144 + n / 4096 mod 64 * 4096
           + n / 64 mod 64 * 64 + n mod 64 in
  m / 65536 = a /\ m / 256 mod 256 = b /\ m mod 256 = c.
Proof.
  intros Ha Hb Hc n m.
  assert (E : m = n) by (subst m; zify; Z.to_euclidean_division_equations; lia).
  rewrite E. subst n. clear E m.
  repeat split; zify; Z.to_euclidean_division_equations; lia.
Qed.

Lemma pack2 a b :
  a < 256 -> b < 256 ->
  let n := (a * 256 + b) * 4 in
  let m := (n / 4096 * 4096 + n / 64 mod 64 * 64 + n mod 64) / 4 in
  m / 256 = a /\ m mod 256 = b.
Proof.
  intros Ha Hb n m.
  assert (E : m = a * 256 + b)
    by (subst m n; zify; Z.to_euclidean_division_equations; lia).
  rewrite E. split; zify; Z.to_euclidean_division_equations; lia.
Qed.

Lemma pack1 a :
  a < 256 ->
  let n := a * 16 in
  (n / 64 * 64 + n mod 64) / 16 = a.
Proof. intros Ha n. subst n. zify; Z.to_euclidean_division_equations; lia. Qed.

Ltac sextet_bounds :=
  try (apply N.mod_lt; lia); try (apply N.Div0.div_lt_upper_bound; lia).

(** Decoding undoes encoding, on every byte string. *)
Lemma b64_decode_encode s : decode (encode s) = Some s.
Proof.
  enough (H : decode (encode s) = Some s
              /\ (forall a, decode (encode (String a s)) = Some (String a s))
              /\ (forall a b, decode (encode (String a (String b s)))
                              = Some (String a (String b s))))
    by apply H.
  induction s as [|c s (IH0 & IH1 & IH2)].
  - split; [reflexivity|]. split.
    + intros a. cbn [encode decode].
      pose proof (N_ascii_bounded a) as Ha.
      rewrite !sextet_of_char_of by sextet_bounds.
      rewrite (pack1 _ Ha). now rewrite ascii_N_embedding.
    + intros a b. cbn [encode decode].
      pose proof (N_ascii_bounded a) as Ha.
      pose proof (N_ascii_bounded b) as Hb.
      rewrite !sextet_of_char_of by sextet_bounds.
      destruct (pack2 _ _ Ha Hb) as [Ea Eb]. cbv zeta in Ea, Eb.
      rewrite Ea, Eb. now rewrite !ascii_N_embedding.
  - split; [apply IH1|]. split; [intro a; apply IH2|].
    intros a b. cbn [encode decode].
    pose proof (N_ascii_bounded a) as Ha.
    pose proof (N_ascii_bounded b) as Hb.
    pose proof (N_ascii_bounded c) as Hc.
    rewrite !sextet_of_char_of by sextet_bounds.
    rewrite IH0.
    destruct (pack3 _ _ _ Ha Hb Hc) as (Ea & Eb & Ec). cbv zeta in Ea, Eb, Ec.
    rewrite Ea, Eb, Ec. now rewrite !ascii_N_embedding.
Qed.

End Base64urlFacts.

(* ================================================================== *)
(** * Facts about the JSON fragment *)

Module JsonFacts.

Import Json StrFacts.

Lemma parse_string_body_escape s rest :
  parse_string_body (escape s ++ String quote rest) = Some (s, rest).
Proof.
  induction s as [|c s IH]; [reflexivity|].
  cbn [escape].
  destruct (Ascii.eqb c quote || Ascii.eqb c backslash)%bool eqn:E.
  - cbn [append parse_string_body].
    change (Ascii.eqb backslash quote) with false.
    change (Ascii.eqb backslash backslash) with true.
    cbv iota. rewrite E, IH. reflexivity.
  - cbn [append parse_string_body].
    apply orb_false_iff in E as [E1 E2].
    rewrite E1, E2, IH. reflexivity.
Qed.

Lemma parse_string_dump s rest :
  parse_string (dump_string s ++ rest) = Some (s, rest).
Proof.
  unfold dump_string. cbn [append parse_string].
  rewrite Ascii.eqb_refl, append_assoc.
  apply parse_string_body_escape.
Qed.

(** ** Integers *)

Definition is_digit (c : ascii) : bool :=
  let n := N_of_ascii c in ((48 <=? n) && (n <=? 57))%N.

Lemma digits_of_uint d : all_chars is_digit (NilEmpty.string_of_uint d) = true.
Proof. induction d; cbn; auto. Qed.

Lemma num_chars_of_int i : all_chars is_num_char (NilZero.string_of_int i) = true.
Proof.
  assert (U : forall d, all_chars is_num_char (NilZero.string_of_uint d) = true).
  { intros d. apply all_chars_weaken with (p := is_digit).
    - intros c Hc. unfold is_num_char. unfold is_digit in Hc.
      cbv zeta in *. rewrite Hc. apply orb_true_r.
    - destruct d; try reflexivity; apply (digits_of_uint (_ _)). }
  destruct i as [d|d]; cbn [NilZero.string_of_int all_chars]; [apply U|].
  rewrite U. reflexivity.
Qed.

Lemma to_int_proper z : Z.to_int z <> Decimal.Pos Decimal.Nil
                        /\ Z.to_int z <> Decimal.Neg Decimal.Nil.
Proof.
  rewrite <- (DecimalZ.of_to z), DecimalZ.to_of.
  generalize (Z.to_int z). intros i. split; intros H.
  - destruct i as [d|d]; cbn in H.
    + injection H as H. now apply DecimalFacts.unorm_nonnil in H.
    + destruct (Decimal.nzhead d); discriminate.
  - destruct i as [d|d]; cbn in H; [discriminate|].
    destruct (Decimal.nzhead d); discriminate.
Qed.

Lemma int_of_dump_int z :
  NilZero.int_of_string (dump_int z) = Some (Z.to_int z).
Proof. apply NilZero.isi; apply to_int_proper. Qed.

(** Where a number ends: at the end of the text or at a character that
    is neither sign nor digit. *)
Definition stops (rest : str) : bool :=
  match rest with
  | EmptyString => true
  | String c _ => negb (is_num_char c)
  end.

Lemma span_num_append a rest :
  all_chars is_num_char a = true -> stops rest = true ->
  span_num (a ++ rest) = (a, rest).
Proof.
  intros Ha Hr. induction a as [|c a IH].
  - destruct rest as [|c r]; [reflexivity|].
    cbn in *. apply negb_true_iff in Hr. now rewrite Hr.
  - cbn in *. apply andb_true_iff in Ha as [Hc Ha].
    rewrite Hc, (IH Ha). reflexivity.
Qed.

Lemma parse_int_dump z rest :
  stops rest = true -> parse_int (dump_int z ++ rest) = Some (z, rest).
Proof.
  intros Hr. unfold parse_int.
  rewrite span_num_append by (auto; apply num_chars_of_int).
  now rewrite int_of_dump_int, DecimalZ.of_to.
Qed.

Lemma dump_int_head z :
  exists c s, dump_int z = String c s /\ is_num_char c = true.
Proof.
  pose proof (num_chars_of_int (Z.to_int z)) as H.
  pose proof (int_of_dump_int z) as P.
  unfold dump_int in *.
  destruct (NilZero.string_of_int (Z.to_int z)) as [|c s]; [discriminate|].
  cbn in H. apply andb_true_iff in H as [Hc _]. eauto.
Qed.

Lemma num_char_not_quote c : is_num_char c = true -> Ascii.eqb c quote = false.
Proof.
  intros H. apply Ascii.eqb_neq. intros ->. discriminate.
Qed.

Lemma parse_value_dump v rest :
  stops rest = true -> parse_value (dump_value v ++ rest) = Some (v, rest).
Proof.
  intros Hr. destruct v as [s|z].
  - pose proof (parse_string_dump s rest) as P.
    unfold parse_value. cbn [dump_value].
    unfold dump_string in *. cbn [append] in *.
    rewrite Ascii.eqb_refl. now rewrite P.
  - destruct (dump_int_head z) as (c & s & E & Hc).
    pose proof (parse_int_dump z rest Hr) as P.
    unfold parse_value. cbn [dump_value]. rewrite E in *. cbn [append] in *.
    rewrite (num_char_not_quote _ Hc). now rewrite P.
Qed.

(** ** Objects *)

Lemma parse_members_dump d :
  d <> [] ->
  forall fuel rest,
    (List.length d <= fuel)%nat ->
    parse_members fuel (dump_members d ++ String "}" rest) = Some (d, rest).
Proof.
  induction d as [|[k v] d IH]; [congruence|].
  intros _ fuel rest Hf.
  destruct fuel as [|fuel]; [cbn in Hf; lia|].
  destruct d as [|kv d].
  - cbn [dump_members parse_members]. unfold dump_member. cbn [fst snd].
    rewrite !append_assoc, parse_string_dump. cbn [append].
    rewrite parse_value_dump by reflexivity. reflexivity.
  - change (dump_members ((k, v) :: kv :: d))
      with (dump_member (k, v) ++ "," ++ dump_members (kv :: d))%string.
    cbn [parse_members]. unfold dump_member. cbn [fst snd].
    rewrite !append_assoc, parse_string_dump. cbn [append].
    rewrite parse_value_dump by reflexivity.
    rewrite IH; [reflexivity | discriminate | cbn in *; lia].
Qed.

Lemma dump_members_length d :
  (List.length d <= String.length (dump_members d))%nat.
Proof.
  induction d as [|[k v] d IH]; [cbn; lia|].
  destruct d as [|kv d].
  - cbn. lia.
  - change (dump_members ((k, v) :: kv :: d))
      with (dump_member (k, v) ++ "," ++ dump_members (kv :: d))%string.
    rewrite !length_append. cbn [String.length List.length] in *. lia.
Qed.

(** Reading back what was written gives the mapping written. *)
Lemma loads_dumps d : loads (dumps d) = Some d.
Proof.
  destruct d as [|[k v] d]; [reflexivity|].
  unfold dumps.
  pose proof (parse_members_dump ((k, v) :: d)) as P.
  pose proof (dump_members_length ((k, v) :: d)) as L.
  remember ((k, v) :: d) as m eqn:Em.
  assert (Hq : exists t, dump_members m = String quote t).
  { subst m. destruct d; cbn; unfold dump_member, dump_string; cbn; eauto. }
  destruct Hq as (t & Et).
  cbn [append]. rewrite Et. cbn [append].
  unfold loads.
  change (String quote (t ++ "}"))%string with (String quote t ++ "}")%string.
  rewrite <- Et.
  rewrite P; [reflexivity | subst m; discriminate |].
  rewrite length_append. lia.
Qed.

End JsonFacts.

(* ================================================================== *)
(** * Facts about the signing primitive *)

Module JwtFacts.

Import Jwt StrFacts.

Definition not_dot (c : ascii) : bool := negb (Ascii.eqb c ".").

Lemma alphabet_not_dot c : Base64urlFacts.in_alphabet c = true -> not_dot c = true.
Proof.
  intros H. unfold not_dot. apply negb_true_iff, Ascii.eqb_neq.
  intros ->. discriminate.
Qed.

Lemma encode_no_dot s : all_chars not_dot (Base64url.encode s) = true.
Proof.
  apply all_chars_weaken with (p := Base64urlFacts.in_alphabet).
  - apply alphabet_not_dot.
  - apply Base64urlFacts.encode_in_alphabet.
Qed.

Lemma rsplit_dot_none b : all_chars not_dot b = true -> rsplit_dot b = None.
Proof.
  induction b as [|c b IH]; [reflexivity|].
  cbn. intros H. apply andb_true_iff in H as [Hc Hb].
  rewrite (IH Hb). unfold not_dot in Hc. apply negb_true_iff in Hc.
  now rewrite Hc.
Qed.

Lemma rsplit_dot_append a b :
  all_chars not_dot b = true ->
  rsplit_dot (a ++ String "." b) = Some (a, b).
Proof.
  intros Hb. induction a as [|c a IH].
  - cbn. now rewrite (rsplit_dot_none _ Hb).
  - cbn [append rsplit_dot]. now rewrite IH.
Qed.

Lemma split_dot_append a b :
  all_chars not_dot a = true ->
  split_dot (a ++ String "." b) = Some (a, b).
Proof.
  induction a as [|c a IH]; [reflexivity|].
  cbn. intros H. apply andb_true_iff in H as [Hc Ha].
  unfold not_dot in Hc. apply negb_true_iff in Hc.
  now rewrite Hc, (IH Ha).
Qed.

(** The token [encode] builds for [HS256]. *)
Definition token_of (payload : dict) (key : str) : str :=
  let input := signing_input payload "HS256" in
  (input ++ "." ++ Base64url.encode (sign key input))%string.

Lemma encode_hs256 payload key :
  key <> ""%string -> encode payload key "HS256" = inr (token_of payload key).
Proof.
  intros Hk. unfold encode. cbn [supported negb].
  change (String.eqb "HS256" "HS256") with true. cbn [negb].
  apply String.eqb_neq in Hk. now rewrite Hk.
Qed.

(** What [decode] answers on a token of [encode], under any secret: the
    claims when the tag recomputed under that secret is the token's,
    a signature mismatch otherwise. *)
Lemma decode_token_of payload key key' :
  decode (token_of payload key) key' ["HS256"%string]
  = if String.eqb (sign key (signing_input payload "HS256"))
                  (sign key' (signing_input payload "HS256"))
    then inr payload
    else inl InvalidSignatureError.
Proof.
  unfold decode, token_of. cbv zeta.
  set (input := signing_input payload "HS256").
  set (tag := sign key input).
  set (tag' := sign key' input).
  change ("." ++ ?x)%string with (String "." x).
  rewrite rsplit_dot_append by apply encode_no_dot.
  unfold input at 1, signing_input.
  change ("." ++ ?x)%string with (String "." x).
  rewrite split_dot_append by apply encode_no_dot.
  rewrite !Base64urlFacts.b64_decode_encode, !JsonFacts.loads_dumps.
  change (sign key' input) with tag'.
  clearbody tag tag'. clear input.
  destruct (String.eqb tag tag').
  all: cbv beta iota delta [lookup header String.eqb Ascii.eqb Bool.eqb mem supported existsb negb andb orb].
  all: reflexivity.
Qed.

Lemma encode_empty_key payload alg :
  exists why, encode payload "" alg = inl (SigningFailure why).
Proof.
  unfold encode. destruct (negb (supported alg)); [eauto|].
  change (String.eqb "" "") with true. cbv iota. eauto.
Qed.

Lemma jwt_decode_encode payload key token :
  encode payload key "HS256" = inr token ->
  decode token key ["HS256"%string] = inr payload.
Proof.
  destruct (String.eqb_spec key "") as [->|Hk].
  - destruct (encode_empty_key payload "HS256") as [why E].
    rewrite E. discriminate.
  - rewrite (encode_hs256 _ _ Hk). intros [= <-].
    now rewrite decode_token_of, String.eqb_refl.
Qed.

End JwtFacts.

(* ================================================================== *)
(** * Facts about doubles *)

Module DoubleFacts.

Import Double.

(** Known answers: [999999 / 1e6] is the double
    9007190247541737 / 2 ^ 53; just below [2 ^ 34] seconds the sum still
    truncates to the whole seconds, and from [2 ^ 34] on it no longer
    does. *)
Example double_of_fraction :
  to_frac (div (of_int 999999) (of_int 1000000)) = (9007190247541737, 2 ^ 53).
Proof. reflexivity. Qed.

Example double_sum_below_2_34 :
  to_int (add (of_int (2 ^ 34 - 1)) (div (of_int 999999) (of_int 1000000)))
  = 2 ^ 34 - 1.
Proof. reflexivity. Qed.

Example double_sum_rounds_up :
  to_int (add (of_int 17198524800) (div (of_int 999999) (of_int 1000000)))
  = 17198524801.
Proof. reflexivity. Qed.

(** ** Rounding to the nearest integer *)

Lemma nearest_even_cases n d :
  0 < d ->
  exists q r, n = d * q + r /\ 0 <= r < d
              /\ (nearest_even n d = q /\ 2 * r <= d
                  \/ nearest_even n d = q + 1 /\ d <= 2 * r).
Proof.
  intros Hd. exists (n / d), (n mod d).
  pose proof (Z.div_mod n d ltac:(lia)) as E.
  pose proof (Z.mod_pos_bound n d Hd) as B.
  split; [exact E|]. split; [exact B|].
  unfold nearest_even.
  destruct (Z.ltb_spec (2 * (n mod d)) d) as [H1|H1]; [left; lia|].
  destruct (Z.ltb_spec d (2 * (n mod d))) as [H2|H2]; [right; lia|].
  destruct (Z.even (n / d)); [left | right]; lia.
Qed.

Lemma nearest_even_ge n d k : 0 < d -> k * d <= n -> k <= nearest_even n d.
Proof.
  intros Hd H. destruct (nearest_even_cases n d Hd) as (q & r & E & B & C).
  assert (k <= q) by nia. lia.
Qed.

Lemma nearest_even_le n d k : 0 < d -> n <= k * d -> nearest_even n d <= k.
Proof.
  intros Hd H. destruct (nearest_even_cases n d Hd) as (q & r & E & B & C).
  destruct C as [[-> _]|[-> Hr]]; nia.
Qed.

Lemma nearest_even_below_half n d k :
  0 < d -> 2 * n < (2 * k + 1) * d -> nearest_even n d <= k.
Proof.
  intros Hd H. destruct (nearest_even_cases n d Hd) as (q & r & E & B & C).
  destruct C as [[-> _]|[-> Hr]]; nia.
Qed.

Lemma nearest_even_whole k : nearest_even k 1 = k.
Proof.
  unfold nearest_even. rewrite Z.div_1_r, Z.mod_1_r. reflexivity.
Qed.

(** ** The exponent *)

Lemma log2_ratio_le n d K :
  0 < n -> 0 < d -> -1 <= K -> n < d * 2 ^ (K + 1) -> log2_ratio n d <= K.
Proof.
  intros Hn Hd HK Hlt.
  destruct (Z.le_gt_cases (log2_ratio n d) K) as [H|H]; [exact H|exfalso].
  assert (Hmono : forall k, K + 1 <= k -> d * 2 ^ (K + 1) <= d * 2 ^ k).
  { intros k Hk. apply Z.mul_le_mono_nonneg_l; [lia|].
    apply Z.pow_le_mono_r; lia. }
  unfold log2_ratio in H.
  set (k0 := Z.log2 n - Z.log2 d) in *.
  destruct (scaled_le d k0 n) eqn:E.
  - unfold scaled_le in E.
    destruct (Z.leb_spec 0 k0) as [_|Hneg]; [|lia].
    apply Z.leb_le in E. specialize (Hmono k0 ltac:(lia)). lia.
  - assert (Hk : K + 1 <= k0 - 1) by lia.
    specialize (Hmono _ Hk).
    pose proof (Z.log2_spec n Hn) as [Ln _].
    pose proof (Z.log2_spec d Hd) as [_ Ld].
    pose proof (Z.log2_nonneg d) as Hld.
    assert (P : 2 ^ Z.log2 n = 2 ^ (k0 - 1) * 2 ^ Z.succ (Z.log2 d)).
    { rewrite <- Z.pow_add_r by lia. f_equal. unfold k0. lia. }
    assert (0 < 2 ^ (k0 - 1)) by (apply Z.pow_pos_nonneg; lia).
    nia.
Qed.

(** The shape of [round] on a positive fraction below [2 ^ (K + 1)]:
    the exponent is negative and at most [K - 52]. *)
Lemma round_below n d K :
  0 < n -> 0 < d -> -1 <= K <= 51 -> n < d * 2 ^ (K + 1) ->
  exists g,
    52 - K <= g <= 1074
    /\ round n d = Dyadic (nearest_even (n * 2 ^ g) d) (- g).
Proof.
  intros Hn Hd HK Hlt.
  pose proof (log2_ratio_le n d K Hn Hd ltac:(lia) Hlt) as Hk.
  unfold round.
  destruct (Z.eqb_spec n 0) as [->|_]; [lia|].
  rewrite (Z.abs_eq n) by lia.
  set (e := Z.max (log2_ratio n d - 52) (-1074)).
  assert (He : -1074 <= e <= K - 52) by (unfold e; lia).
  exists (- e). split; [lia|].
  destruct (Z.leb_spec 0 e) as [Hpos|_]; [lia|].
  rewrite Z.opp_involutive.
  rewrite (Z.sgn_pos n) by lia. now rewrite Z.mul_1_l.
Qed.

(** ** Values on the grid *)

Lemma grid_le n d g j T :
  0 < d -> 0 <= j <= g -> n * 2 ^ j <= T * d ->
  nearest_even (n * 2 ^ g) d * 2 ^ j <= T * 2 ^ g.
Proof.
  intros Hd Hj H.
  replace g with (j + (g - j)) by lia. rewrite Z.pow_add_r by lia.
  assert (Hp : 0 < 2 ^ (g - j)) by (apply Z.pow_pos_nonneg; lia).
  assert (Hq : 0 < 2 ^ j) by (apply Z.pow_pos_nonneg; lia).
  assert (L : nearest_even (n * (2 ^ j * 2 ^ (g - j))) d <= T * 2 ^ (g - j)).
  { apply nearest_even_le; [exact Hd|]. nia. }
  nia.
Qed.

Lemma grid_ge n d g s :
  0 < d -> 0 <= g -> s * d <= n -> s * 2 ^ g <= nearest_even (n * 2 ^ g) d.
Proof.
  intros Hd Hg H.
  assert (Hp : 0 < 2 ^ g) by (apply Z.pow_pos_nonneg; lia).
  apply nearest_even_ge; [exact Hd|]. nia.
Qed.

(** ** Integers and the fraction of a second *)

(** An integer below [2 ^ 52] converts exactly. *)
Lemma of_int_exact z :
  0 <= z < 2 ^ 52 ->
  exists b, 0 < b /\ to_frac (of_int z) = (z * b, b).
Proof.
  intros Hz. unfold of_int.
  destruct (Z.eq_dec z 0) as [->|Hnz].
  - exists 1. split; [lia|reflexivity].
  - destruct (round_below z 1 51) as (g & Hg & ->); try lia.
    exists (2 ^ g).
    assert (Hp : 0 < 2 ^ g) by (apply Z.pow_pos_nonneg; lia).
    split; [exact Hp|].
    unfold to_frac. cbn [expo mant].
    destruct (Z.leb_spec 0 (- g)) as [H|_]; [lia|].
    now rewrite nearest_even_whole, Z.opp_involutive.
Qed.

(** [us / 1e6] for a microsecond field: a fraction in [0, 1) that stays
    at least [2 ^ -20 + 2 ^ -25] below one. *)
Lemma microseconds_fraction us :
  0 <= us < 1000000 ->
  exists c d,
    to_frac (div (of_int us) (of_int 1000000)) = (c, d)
    /\ 0 < d /\ 0 <= c /\ c * 2 ^ 25 <= (2 ^ 25 - 33) * d.
Proof.
  intros Hus. unfold div.
  destruct (of_int_exact us ltac:(lia)) as (b & Hb & ->).
  destruct (of_int_exact 1000000 ltac:(lia)) as (b' & Hb' & ->).
  destruct (Z.eq_dec us 0) as [->|Hnz].
  - exists 0, 1. repeat split; try lia.
  - assert (Hn : 0 < us * b * b') by nia.
    assert (Hd : 0 < b * (1000000 * b')) by nia.
    destruct (round_below (us * b * b') (b * (1000000 * b')) (-1))
      as (g & Hg & ->); try lia.
    { change (2 ^ (-1 + 1)) with 1. nia. }
    assert (Hp : 0 < 2 ^ g) by (apply Z.pow_pos_nonneg; lia).
    exists (nearest_even (us * b * b' * 2 ^ g) (b * (1000000 * b'))), (2 ^ g).
    unfold to_frac. cbn [expo mant].
    destruct (Z.leb_spec 0 (- g)) as [H|_]; [lia|].
    rewrite Z.opp_involutive. split; [reflexivity|]. split; [exact Hp|]. split.
    + apply nearest_even_ge; [exact Hd|]. nia.
    + apply grid_le; [exact Hd | lia |].
      assert (us * 2 ^ 25 <= (2 ^ 25 - 33) * 1000000) by lia.
      assert (0 < b * b') by nia. nia.
Qed.

(** [int(s + us / 1e6)] is [s] for whole seconds below [2 ^ 34]. *)
Theorem int_of_seconds_and_microseconds s us :
  0 <= s < 2 ^ 34 -> 0 <= us < 1000000 ->
  to_int (add (of_int s) (div (of_int us) (of_int 1000000))) = s.
Proof.
  intros Hs Hus.
  destruct (microseconds_fraction us Hus) as (c & d & Ef & Hd & Hc & Hcd).
  destruct (of_int_exact s ltac:(lia)) as (b & Hb & Es).
  unfold add. rewrite Es, Ef.
  set (N := s * b * d + c * b).
  set (D := b * d).
  assert (HD : 0 < D) by (unfold D; nia).
  assert (Hlow : s * D <= N) by (unfold N, D; nia).
  assert (Hup : N * 2 ^ 25 <= (s * 2 ^ 25 + 2 ^ 25 - 33) * D).
  { unfold N, D.
    replace ((s * b * d + c * b) * 2 ^ 25)
      with (s * 2 ^ 25 * (b * d) + b * (c * 2 ^ 25)) by ring.
    replace ((s * 2 ^ 25 + 2 ^ 25 - 33) * (b * d))
      with (s * 2 ^ 25 * (b * d) + b * ((2 ^ 25 - 33) * d)) by ring.
    apply Z.add_le_mono_l. apply Z.mul_le_mono_nonneg_l; lia. }
  destruct (Z.eq_dec N 0) as [E0|Hnz].
  - assert (s = 0) by nia. subst s. rewrite E0. reflexivity.
  - assert (HN : 0 < N) by nia.
    destruct (round_below N D 33) as (g & Hg & ->); try lia.
    { change (2 ^ (33 + 1)) with (2 ^ 34).
      assert (N * 2 ^ 25 < 2 ^ 34 * 2 ^ 25 * D); [|lia].
      eapply Z.le_lt_trans; [exact Hup|].
      apply Z.mul_lt_mono_pos_r; lia. }
    assert (Hp : 2 ^ 19 <= 2 ^ g) by (apply Z.pow_le_mono_r; lia).
    unfold to_int, to_frac. cbn [expo mant].
    destruct (Z.leb_spec 0 (- g)) as [H|_]; [lia|].
    rewrite Z.opp_involutive.
    set (m := nearest_even (N * 2 ^ g) D).
    assert (Lo : s * 2 ^ g <= m) by (apply grid_ge; lia).
    assert (Hi : m <= (s + 1) * 2 ^ g - 1).
    { apply nearest_even_below_half; [exact HD|].
      assert (2 ^ 25 * (2 * (N * 2 ^ g))
              < 2 ^ 25 * ((2 * ((s + 1) * 2 ^ g - 1) + 1) * D)); [|lia].
      replace (2 ^ 25 * (2 * (N * 2 ^ g)))
        with (2 * 2 ^ g * (N * 2 ^ 25)) by ring.
      eapply Z.le_lt_trans.
      - apply Z.mul_le_mono_nonneg_l; [lia | exact Hup].
      - change (2 ^ 25) with 33554432 in *. change (2 ^ 19) with 524288 in *.
        nia. }
    rewrite Z.quot_div_nonneg by lia.
    symmetry. apply Z.div_unique with (r := m - s * 2 ^ g); lia.
Qed.

End DoubleFacts.

(* ================================================================== *)
(** * The console report, as the specification lays it out *)

Module Spec.

Import Help Datetime.

(** Sixty equals signs. *)
Definition banner : str :=
  "============================================================".

(** The five bullet lines of the details section. *)
Definition details (w : world) : list str :=
  [ "• Issued At: " ++ to_str (issued_at w);
    "• Expires At: " ++ to_str (expiration_time w);
    "• Valid For: 365 days";
    "• User: admin@xeno.com";
    "• Role: admin" ]%string.

Definition reminders : list str :=
  [ "1. Use this as your ADMIN_JWT_TOKEN in Railway environment variables";
    "2. Make sure JWT_SECRET matches the secret_key used here";
    "3. Remove the old expired ADMIN_JWT_TOKEN from Railway" ]%string.

(** Banner, title, banner, token, blank, details, blank, reminders,
    banner. *)
Definition report_of (w : world) (token : str) : list str :=
  ([ banner; "🔐 FRESH JWT TOKEN GENERATED"; banner;
     "Token: " ++ token; "" ]%string
   ++ "📅 Token Details:"%string :: details w
   ++ [ ""%string ]
   ++ "🚨 IMPORTANT:"%string :: reminders
   ++ [ banner ])%list.

(** 365 days, in seconds. *)
Definition validity_window : Z := 365 * 86400.


End Spec.

(* ================================================================== *)
(** * Hosts and inputs the properties are tried on *)

Module Scenario.

Import Help.

(** 2024-01-01T00:00:00Z, in microseconds. *)
Definition new_year_2024 : N := 1704067200000000.

(** A host on UTC whose clock stands at that instant. *)
Definition utc_host : world :=
  {| clock := frozen new_year_2024; mktime := utc |}.

(** The same clock on a host whose local time is UTC+01:00. *)
Definition cet_host : world :=
  {| clock := frozen new_year_2024; mktime := fixed_offset 3600 |}.

(** A host on UTC whose clock moves by one microsecond between the two
    reads, from 00:00:00.999999 to 00:00:01.000000. *)
Definition ticking_host : world :=
  {| clock := fun n => match n with
                       | O => 1704067200999999%N
                       | S _ => 1704067201000000%N
                       end;
     mktime := utc |}.

(** The shipped secret followed by one zero byte. *)
Definition padded_secret : str :=
  (secret_key ++ String (ascii_of_N 0) EmptyString)%string.

End Scenario.

Module StrictScenario.

Import Help Strict StrictHelp Scenario.

(** The UTC host with a UTF-8 standard output. *)
Definition utf8_host : host :=
  {| env := utc_host; stdout_fault := takes_all |}.



(** The ticking host and the UTC+01:00 host, with a UTF-8 output. *)
Definition ticking_utf8_host : host :=
  {| env := ticking_host; stdout_fault := takes_all |}.
Definition cet_utf8_host : host :=
  {| env := cet_host; stdout_fault := takes_all |}.

End StrictScenario.

(* ================================================================== *)
(** * Facts about the script *)

Module HelpFacts.

Import Help Datetime Spec.

Lemma claims_run w :
  claims w initial
  = (Ok (add (Naive (Z.of_N (clock w 0))) (timedelta_days 365),
         Naive (Z.of_N (clock w 1)),
         [ ("sub", VStr "admin");
           ("email", VStr "admin@xeno.com");
           ("username", VStr "admin@xeno.com");
           ("role", VStr "admin");
           ("exp", VInt (int_timestamp w
                           (add (Naive (Z.of_N (clock w 0))) (timedelta_days 365))));
           ("iat", VInt (int_timestamp w (Naive (Z.of_N (clock w 1))))) ]%string),
     {| reads := 2; stdout := [] |}).
Proof. reflexivity. Qed.

Lemma issued_at_eq w : issued_at w = Naive (Z.of_N (clock w 1)).
Proof. reflexivity. Qed.

Lemma expiration_time_eq w :
  expiration_time w = add (Naive (Z.of_N (clock w 0))) (timedelta_days 365).
Proof. reflexivity. Qed.

Lemma payload_eq w :
  payload w
  = [ ("sub", VStr "admin");
      ("email", VStr "admin@xeno.com");
      ("username", VStr "admin@xeno.com");
      ("role", VStr "admin");
      ("exp", VInt (int_timestamp w (expiration_time w)));
      ("iat", VInt (int_timestamp w (issued_at w))) ]%string.
Proof. reflexivity. Qed.

(** A raising primitive ends the run before anything is printed. *)
Lemma run_raises w enc secret alg e :
  enc (payload w) secret alg = inl e ->
  run w enc secret alg = (Raise e, {| reads := 2; stdout := [] |}).
Proof.
  intros H. unfold run, script. unfold bind at 1.
  rewrite claims_run. unfold payload in H. rewrite claims_run in H.
  unfold bind at 1. rewrite H. reflexivity.
Qed.

(** A returning primitive is followed by the seventeen prints. *)
Lemma run_returns w enc secret alg token :
  enc (payload w) secret alg = inr token ->
  run w enc secret alg
  = (Ok token, {| reads := 2; stdout := report_of w token |}).
Proof.
  intros H. unfold run, script. unfold bind at 1.
  rewrite claims_run. unfold payload in H. rewrite claims_run in H.
  unfold bind at 1. rewrite H.
  unfold report_of, details. rewrite issued_at_eq, expiration_time_eq.
  reflexivity.
Qed.

End HelpFacts.

(* ================================================================== *)
(** * Facts about the script with its failure paths *)

Module StrictFacts.

Import Help Datetime Spec Strict StrictHelp.
Local Open Scope list_scope.

(** Below [2 ^ 34] seconds the double gives the whole seconds exactly. *)
Lemma int_timestamp_exact h t :
  0 <= mktime (env h) (t / us_per_s) < 2 ^ 34 ->
  int_timestamp h (Naive t) = mktime (env h) (t / us_per_s).
Proof.
  intros Hm. unfold int_timestamp. cbn [naive_us].
  apply DoubleFacts.int_of_seconds_and_microseconds; [exact Hm|].
  unfold us_per_s. apply Z.mod_pos_bound. lia.
Qed.

(** The two values the clock lines bind. *)
Definition expiry_of (h : host) : datetime :=
  Naive (Z.of_N (clock (env h) 0) + delta_us (timedelta_days 365)).
Definition issue_of (h : host) : datetime :=
  Naive (Z.of_N (clock (env h) 1)).

Definition claims_of (h : host) : dict :=
  [ ("sub", VStr "admin");
    ("email", VStr "admin@xeno.com");
    ("username", VStr "admin@xeno.com");
    ("role", VStr "admin");
    ("exp", VInt (int_timestamp h (expiry_of h)));
    ("iat", VInt (int_timestamp h (issue_of h))) ]%string.

(** Lines 17-27 either bind the two values and build the mapping, with
    the clock in range, or raise ValueError or OverflowError before
    anything is printed, with the clock out of range. *)
Lemma claims_cases h :
  (clock_in_range h
   /\ claims h initial
      = (Ok (expiry_of h, issue_of h, claims_of h),
         {| reads := 2; stdout := [] |}))
  \/ (~ clock_in_range h
      /\ exists e n,
           claims h initial = (Raise e, {| reads := n; stdout := [] |})
           /\ (n <= 2)%nat
           /\ ((exists why, e = ValueError why)
               \/ (exists why, e = OverflowError why))).
Proof.
  unfold clock_in_range, claims, bind, utcnow. cbn [reads stdout initial].
  destruct (Z.ltb_spec max_us (Z.of_N (clock (env h) 0))) as [H0|H0].
  { right. split; [unfold timedelta_days, us_per_s; cbn [delta_us]; lia|].
    eexists. exists 1%nat. split; [reflexivity|]. split; [lia|]. left. eauto. }
  unfold add. cbn [naive_us].
  assert (Hmin : (Z.of_N (clock (env h) 0) + delta_us (timedelta_days 365)
                  <? min_us) = false).
  { apply Z.ltb_ge. unfold min_us, timedelta_days, us_per_s. cbn [delta_us]. lia. }
  rewrite Hmin. cbn [orb].
  destruct (Z.ltb_spec max_us
              (Z.of_N (clock (env h) 0) + delta_us (timedelta_days 365)))
    as [H1|H1].
  { right. split; [lia|].
    eexists. exists 1%nat. split; [reflexivity|]. split; [lia|]. right. eauto. }
  unfold ret. cbn [reads stdout].
  destruct (Z.ltb_spec max_us (Z.of_N (clock (env h) 1))) as [H2|H2].
  { right. split; [lia|].
    eexists. exists 2%nat. split; [reflexivity|]. split; [lia|]. left. eauto. }
  left. split; [lia|]. reflexivity.
Qed.

Lemma payload_in_range h :
  clock_in_range h -> payload h = Some (claims_of h).
Proof.
  intros Hr. unfold payload.
  destruct (claims_cases h) as [[_ ->]|[Hn _]]; [reflexivity | contradiction].
Qed.

(** ** Printing *)

(** The lines of a list, printed in order. *)
Fixpoint print_all (h : host) (lines : list str) : M unit :=
  match lines with
  | [] => ret tt
  | [l] => print h l
  | l :: rest => bind (print h l) (fun _ => print_all h rest)
  end.

Lemma print_all_cons h l rest st :
  print_all h (l :: rest) st
  = bind (print h l) (fun _ => print_all h rest) st.
Proof.
  destruct rest as [|l' rest]; [|reflexivity].
  cbn [print_all]. unfold bind, print, ret.
  destruct (stdout_fault h (List.length (stdout st)) l); reflexivity.
Qed.

(** The report as lines 32-48 print it, for the two values bound at
    lines 17-18. *)
Definition lines_of (token : str) (issued_at expiration_time : datetime)
  : list str :=
  [ banner;
    "🔐 FRESH JWT TOKEN GENERATED";
    banner;
    "Token: " ++ token;
    "";
    "📅 Token Details:";
    "• Issued At: " ++ to_str issued_at;
    "• Expires At: " ++ to_str expiration_time;
    "• Valid For: 365 days";
    "• User: admin@xeno.com";
    "• Role: admin";
    "";
    "🚨 IMPORTANT:";
    "1. Use this as your ADMIN_JWT_TOKEN in Railway environment variables";
    "2. Make sure JWT_SECRET matches the secret_key used here";
    "3. Remove the old expired ADMIN_JWT_TOKEN from Railway";
    banner ]%string.

Lemma report_prints_lines h token ia et st :
  report h token ia et st = print_all h (lines_of token ia et) st.
Proof. reflexivity. Qed.

Lemma lines_of_report h token :
  lines_of token (issue_of h) (expiry_of h) = report_of (env h) token.
Proof. reflexivity. Qed.

(** Printing a list either writes all of it, or stops at the first line
    the stream refuses, with the lines before it written. *)
Lemma print_all_cases h lines st :
  print_all h lines st
  = (Ok tt, {| reads := reads st; stdout := stdout st ++ lines |})
  \/ exists name done rest,
       lines = done ++ rest /\ rest <> []
       /\ print_all h lines st
          = (Raise (OutputError name),
             {| reads := reads st; stdout := stdout st ++ done |}).
Proof.
  revert st. induction lines as [|l lines IH]; intros st.
  - left. cbn. rewrite List.app_nil_r. now destruct st.
  - rewrite print_all_cons. unfold bind, print.
    destruct (stdout_fault h (List.length (stdout st)) l) as [name|] eqn:F.
    + right. exists name, [], (l :: lines).
      split; [reflexivity|]. split; [discriminate|].
      rewrite List.app_nil_r. now destruct st.
    + destruct (IH {| reads := reads st; stdout := stdout st ++ [l] |})
        as [E|(name & done & rest & El & Hr & E)];
        rewrite E; cbn [reads stdout]; rewrite <- List.app_assoc.
      * left. reflexivity.
      * right. exists name, (l :: done), rest.
        split; [now rewrite El|]. split; [exact Hr|]. reflexivity.
Qed.

Lemma print_all_takes_all h lines st :
  (forall n l, stdout_fault h n l = None) ->
  print_all h lines st
  = (Ok tt, {| reads := reads st; stdout := stdout st ++ lines |}).
Proof.
  intros Hs. revert st. induction lines as [|l lines IH]; intros st.
  - cbn. rewrite List.app_nil_r. now destruct st.
  - rewrite print_all_cons. unfold bind, print. rewrite Hs, IH.
    cbn [reads stdout]. now rewrite <- List.app_assoc.
Qed.

(** ** Runs *)

(** How a run can end. *)
Inductive outcome (h : host) (enc : dict -> str -> str -> exn + str)
          (secret alg : str) : res str * state -> Prop :=
| clock_raised e n :
    ~ clock_in_range h -> (n <= 2)%nat ->
    (exists why, e = ValueError why) \/ (exists why, e = OverflowError why) ->
    outcome h enc secret alg (Raise e, {| reads := n; stdout := [] |})
| signing_raised e :
    clock_in_range h ->
    enc (claims_of h) secret alg = inl e ->
    outcome h enc secret alg (Raise (Of e), {| reads := 2; stdout := [] |})
| print_raised token name done rest :
    clock_in_range h ->
    enc (claims_of h) secret alg = inr token ->
    report_of (env h) token = done ++ rest -> rest <> [] ->
    outcome h enc secret alg
            (Raise (OutputError name), {| reads := 2; stdout := done |})
| returned token :
    clock_in_range h ->
    enc (claims_of h) secret alg = inr token ->
    outcome h enc secret alg
            (Ok token, {| reads := 2; stdout := report_of (env h) token |}).

Lemma run_outcome h enc secret alg :
  outcome h enc secret alg (run h enc secret alg).
Proof.
  unfold run, script. unfold bind at 1.
  destruct (claims_cases h) as [[Hr ->]|[Hn (e & n & -> & Hle & He)]].
  - unfold bind at 1.
    destruct (enc (claims_of h) secret alg) as [e|token] eqn:E.
    + unfold lift, raise. now apply signing_raised.
    + unfold lift, ret at 1. unfold bind at 1.
      rewrite report_prints_lines, lines_of_report.
      destruct (print_all_cases h (report_of (env h) token)
                  {| reads := 2; stdout := [] |})
        as [P|(name & done & rest & El & Hrest & P)]; rewrite P.
      * unfold ret. cbn [reads stdout List.app]. now apply returned.
      * cbn [reads stdout List.app].
        now apply print_raised with (token := token) (rest := rest).
  - now apply clock_raised.
Qed.

(** On a host whose standard output takes every line and whose clock is
    in range, a returning primitive gives the whole report. *)
Lemma run_returns_strict h enc secret alg token :
  (forall n l, stdout_fault h n l = None) ->
  clock_in_range h ->
  enc (claims_of h) secret alg = inr token ->
  run h enc secret alg
  = (Ok token, {| reads := 2; stdout := report_of (env h) token |}).
Proof.
  intros Hs Hr E. unfold run, script. unfold bind at 1.
  destruct (claims_cases h) as [[_ ->]|[Hn _]]; [|contradiction].
  unfold bind at 1. rewrite E. cbn [lift ret]. unfold bind at 1.
  rewrite report_prints_lines, lines_of_report, print_all_takes_all by exact Hs.
  reflexivity.
Qed.

Lemma run_raises_strict h enc secret alg e :
  clock_in_range h ->
  enc (claims_of h) secret alg = inl e ->
  run h enc secret alg = (Raise (Of e), {| reads := 2; stdout := [] |}).
Proof.
  intros Hr E. unfold run, script. unfold bind at 1.
  destruct (claims_cases h) as [[_ ->]|[Hn _]]; [|contradiction].
  unfold bind at 1. rewrite E. reflexivity.
Qed.

(** Where the timestamps are exact, the mapping is the one of [Help]. *)
Lemma claims_of_agree h :
  0 <= mktime (env h) (Z.of_N (clock (env h) 0) / us_per_s + validity_window)
    < 2 ^ 34 ->
  0 <= mktime (env h) (Z.of_N (clock (env h) 1) / us_per_s) < 2 ^ 34 ->
  claims_of h = Help.payload (env h).
Proof.
  intros He Hi. rewrite HelpFacts.payload_eq.
  rewrite HelpFacts.expiration_time_eq, HelpFacts.issued_at_eq.
  unfold claims_of, expiry_of, issue_of, Datetime.add. cbn [naive_us].
  assert (E : (Z.of_N (clock (env h) 0) + delta_us (timedelta_days 365))
              / us_per_s
              = Z.of_N (clock (env h) 0) / us_per_s + validity_window).
  { unfold validity_window, timedelta_days, us_per_s. cbn [delta_us].
    rewrite Z.div_add by lia. reflexivity. }
  rewrite !int_timestamp_exact by (rewrite ?E; assumption).
  unfold Datetime.int_timestamp, timestamp_us, int_of_seconds. cbn [naive_us].
  assert (Q : forall m t, 0 <= m ->
                Z.quot (m * us_per_s + t mod us_per_s) us_per_s = m).
  { intros m t Hm. unfold us_per_s.
    pose proof (Z.mod_pos_bound t 1000000 ltac:(lia)).
    rewrite Z.quot_div_nonneg by lia.
    rewrite Z.div_add_l by lia.
    rewrite (Z.div_small (t mod 1000000) 1000000) by lia. lia. }
  rewrite !Q by (rewrite ?E; lia). reflexivity.
Qed.

(** A run of [Help], read as a run of this model. *)
Definition of_help (r : Py.res str * state) : res str * state :=
  match r with
  | (Py.Ok token, st) => (Ok token, st)
  | (Py.Raise e, st) => (Raise (Of e), st)
  end.

(** [Help] is this model on the hosts it assumes: a standard output
    that takes every line, a clock inside the range of [datetime], and
    timestamps that are not negative and below [2 ^ 34] seconds. *)
Lemma run_agrees_with_help h enc secret alg :
  (forall n l, stdout_fault h n l = None) ->
  clock_in_range h ->
  0 <= mktime (env h) (Z.of_N (clock (env h) 0) / us_per_s + validity_window)
    < 2 ^ 34 ->
  0 <= mktime (env h) (Z.of_N (clock (env h) 1) / us_per_s) < 2 ^ 34 ->
  run h enc secret alg = of_help (Help.run (env h) enc secret alg).
Proof.
  intros Hs Hr He Hi.
  pose proof (claims_of_agree h He Hi) as Ep.
  destruct (enc (claims_of h) secret alg) as [e|token] eqn:E.
  - rewrite (run_raises_strict _ _ _ _ _ Hr E).
    rewrite Ep in E. now rewrite (HelpFacts.run_raises _ _ _ _ _ E).
  - rewrite (run_returns_strict _ _ _ _ _ Hs Hr E).
    rewrite Ep in E. now rewrite (HelpFacts.run_returns _ _ _ _ _ E).
Qed.

End StrictFacts.

(* ================================================================== *)
(** * Properties of the specification *)

Module Properties.

Import Help Datetime Spec Scenario HelpFacts.

(** ** Timestamps *)

Lemma int_timestamp_utc w t :
  (forall x, mktime w x = x) -> 0 <= t ->
  int_timestamp w (Naive t) = t / us_per_s.
Proof.
  intros Hutc Ht. unfold int_timestamp, timestamp_us, int_of_seconds.
  cbn [naive_us]. rewrite Hutc. unfold us_per_s.
  rewrite Z.mul_comm, <- Z.div_mod by lia.
  apply Z.quot_div_nonneg; lia.
Qed.

(** On a UTC host the two claims are the whole seconds of the two
    readings, the first one moved by 365 days. *)
Lemma timestamps_on_utc_host w :
  (forall x, mktime w x = x) ->
  claim_int (payload w) "exp"
  = Some (Z.of_N (clock w 0) / us_per_s + validity_window)
  /\ claim_int (payload w) "iat" = Some (Z.of_N (clock w 1) / us_per_s).
Proof.
  intros Hutc. rewrite payload_eq. cbn [claim_int lookup String.eqb Ascii.eqb Bool.eqb].
  rewrite expiration_time_eq, issued_at_eq. unfold add. cbn [naive_us delta_us timedelta_days].
  rewrite !int_timestamp_utc by (auto; unfold us_per_s; lia).
  split; [|reflexivity]. f_equal. unfold validity_window, us_per_s.
  rewrite Z.div_add by lia. reflexivity.
Qed.

(** With one reading for both, on a UTC host, the window is exact. *)
Lemma window_exact_on_one_reading w e i :
  (forall x, mktime w x = x) -> clock w 0 = clock w 1 ->
  claim_int (payload w) "exp" = Some e ->
  claim_int (payload w) "iat" = Some i ->
  e - i = validity_window.
Proof.
  intros Hutc Hclk He Hi.
  destruct (timestamps_on_utc_host w Hutc) as [He' Hi'].
  rewrite He' in He. rewrite Hi' in Hi. rewrite Hclk in He.
  injection He as <-. injection Hi as <-. lia.
Qed.

(** C1 (code defect).  The claim: the expiry claim minus the issued-at
    claim is exactly 365 * 86400 seconds whenever the clock is read.
    The script reads the clock twice; when a second boundary falls
    between the two reads, here from 00:00:00.999999 to 00:00:01.000000
    on a UTC host, the window it writes is one second short. *)
Theorem C1_window_short_when_clock_ticks :
  claim_int (payload ticking_host) "exp" = Some 1735603200
  /\ claim_int (payload ticking_host) "iat" = Some 1704067201
  /\ 1735603200 - 1704067201 = validity_window - 1.
Proof. repeat split. Qed.

(** C2 (code defect).  The claim: with the clock fixed at T the
    issued-at claim is T and the expiry claim is T + 365 days, by the
    clock alone.  The script takes [.timestamp()] of a naive UTC value,
    which Python reads as local time: on a host at UTC+01:00 with the
    clock at 1704067200 both claims come out 3600 seconds early. *)
Theorem C2_timestamps_shift_with_host_zone :
  Z.of_N new_year_2024 / us_per_s = 1704067200
  /\ claim_int (payload cet_host) "iat" = Some (1704067200 - 3600)
  /\ claim_int (payload cet_host) "exp"
     = Some (1704067200 + validity_window - 3600).
Proof. repeat split. Qed.

(** C3 (code defect, the one of C2).  The claim: with the clock at
    2024-01-01T00:00:00Z and the secret "s3cr3t" the token decodes to
    iat 1704067200 and exp 1735603200.  On the UTC+01:00 host the token
    decodes to iat 1704063600 and exp 1735599600. *)
Theorem C3_scenario_on_cet_host :
  exists token,
    minted (run cet_host Jwt.encode "s3cr3t" "HS256") = Some token
    /\ Jwt.decode token "s3cr3t" ["HS256"%string]
       = inr [ ("sub", VStr "admin");
               ("email", VStr "admin@xeno.com");
               ("username", VStr "admin@xeno.com");
               ("role", VStr "admin");
               ("exp", VInt 1735599600);
               ("iat", VInt 1704063600) ]%string.
Proof.
  eexists. split.
  - unfold minted.
    rewrite (run_returns cet_host Jwt.encode "s3cr3t" "HS256" _
               (JwtFacts.encode_hs256 _ "s3cr3t" ltac:(discriminate))).
    reflexivity.
  - rewrite JwtFacts.decode_token_of, String.eqb_refl. reflexivity.
Qed.

(** The scenario of C3 on a UTC host: there the decoded claims are the
    ones the specification lists. *)
Lemma scenario_on_utc_host :
  exists token,
    minted (run utc_host Jwt.encode "s3cr3t" "HS256") = Some token
    /\ Jwt.decode token "s3cr3t" ["HS256"%string]
       = inr [ ("sub", VStr "admin");
               ("email", VStr "admin@xeno.com");
               ("username", VStr "admin@xeno.com");
               ("role", VStr "admin");
               ("exp", VInt 1735603200);
               ("iat", VInt 1704067200) ]%string.
Proof.
  eexists. split.
  - unfold minted.
    rewrite (run_returns utc_host Jwt.encode "s3cr3t" "HS256" _
               (JwtFacts.encode_hs256 _ "s3cr3t" ltac:(discriminate))).
    reflexivity.
  - rewrite JwtFacts.decode_token_of, String.eqb_refl. reflexivity.
Qed.

(** C4.  On every host the claims mapping holds the four fixed identity
    fields, sub = admin, email = username = admin@xeno.com, role =
    admin, then the expiry and the issued-at timestamps, and nothing
    else. *)
Theorem C4_claims_mapping_fields (w : world) :
  keys (payload w) = [ "sub"; "email"; "username"; "role"; "exp"; "iat" ]%string
  /\ lookup (payload w) "sub" = Some (VStr "admin")
  /\ lookup (payload w) "email" = Some (VStr "admin@xeno.com")
  /\ lookup (payload w) "username" = Some (VStr "admin@xeno.com")
  /\ lookup (payload w) "role" = Some (VStr "admin")
  /\ lookup (payload w) "exp" = Some (VInt (int_timestamp w (expiration_time w)))
  /\ lookup (payload w) "iat" = Some (VInt (int_timestamp w (issued_at w))).
Proof. rewrite payload_eq. repeat split. Qed.

(** What the shipped script does against the modelled primitive. *)
Lemma help_py_run w :
  help_py w
  = (Ok (JwtFacts.token_of (payload w) secret_key),
     {| reads := 2;
        stdout := report_of w (JwtFacts.token_of (payload w) secret_key) |}).
Proof.
  assert (E : Jwt.encode (payload w) secret_key algorithm
              = inr (JwtFacts.token_of (payload w) secret_key))
    by (apply JwtFacts.encode_hs256; discriminate).
  unfold help_py. now rewrite (run_returns _ _ _ _ _ E).
Qed.

(** The token the shipped script prints on the UTC host at
    2024-01-01T00:00:00Z. *)
Example token_on_utc_host :
  minted (help_py utc_host)
  = Some ("eyJhbGciOiJIUzI1NiIsInR5cCI6IkpXVCJ9"
          ++ ".eyJzdWIiOiJhZG1pbiIsImVtYWlsIjoiYWRtaW5AeGVuby5jb20iLCJ1c2VybmFtZSI6"
          ++ "ImFkbWluQHhlbm8uY29tIiwicm9sZSI6ImFkbWluIiwiZXhwIjoxNzM1NjAzMjAwLCJp"
          ++ "YXQiOjE3MDQwNjcyMDB9"
          ++ ".rJcQkOtXMEQcY8kj1rrGxOtds8Zd2cfFTq4Lly2iI20")%string.
Proof. vm_compute. reflexivity. Qed.

(** C5.  On every host the shipped script mints a token, and decoding
    that token with the same secret and the same algorithm gives back
    the claims mapping that was encoded. *)
Theorem C5_decode_inverts_encode (w : world) :
  exists token,
    minted (help_py w) = Some token
    /\ Jwt.decode token secret_key [algorithm] = inr (payload w).
Proof.
  exists (JwtFacts.token_of (payload w) secret_key). split.
  - unfold minted. now rewrite help_py_run.
  - apply JwtFacts.jwt_decode_encode.
    apply JwtFacts.encode_hs256. discriminate.
Qed.

(** C6.  Whatever the signing primitive, the secret and the algorithm:
    if the signing step raises a SigningFailure, the run ends with that
    exception, a non-zero exit status and its diagnostic, and standard
    output is empty: no banner, no token line, no details, no
    reminders. *)
Theorem C6_no_output_when_signing_fails
        (w : world) (enc : dict -> str -> str -> exn + str)
        (secret alg why : str) :
  enc (payload w) secret alg = inl (SigningFailure why) ->
  stdout (snd (run w enc secret alg)) = []
  /\ fst (run w enc secret alg) = Raise (SigningFailure why)
  /\ exit_status (fst (run w enc secret alg)) <> 0
  /\ diagnostic (fst (run w enc secret alg)) = Some why.
Proof.
  intros H. rewrite (run_raises _ _ _ _ _ H). cbn.
  repeat split. discriminate.
Qed.

Lemma C6_witness :
  stdout (snd (run utc_host Jwt.encode secret_key "ROT13")) = []
  /\ fst (run utc_host Jwt.encode secret_key "ROT13")
     = Raise (SigningFailure "Algorithm not supported")
  /\ exit_status (fst (run utc_host Jwt.encode secret_key "ROT13")) <> 0
  /\ diagnostic (fst (run utc_host Jwt.encode secret_key "ROT13"))
     = Some "Algorithm not supported"%string.
Proof.
  apply (C6_no_output_when_signing_fails utc_host Jwt.encode secret_key "ROT13").
  reflexivity.
Defined.

(** ** The report *)

Lemma banner_is_sixty_equals : banner = str_mul "=" 60.
Proof. reflexivity. Qed.

Lemma details_are_bulleted w :
  forallb (String.prefix "• ") (details w) = true.
Proof. reflexivity. Qed.

(** C7.  Whatever the signing primitive: when the signing step returns
    a token, standard output is, in this order, a banner of 60 equals
    signs, the title, the banner again, the token line, a blank line,
    the Token Details heading with issued-at, expiry, validity in days,
    user and role, each behind a bullet, a blank line, the IMPORTANT
    heading with the three numbered reminders, and the closing
    banner. *)
Theorem C7_report_layout
        (w : world) (enc : dict -> str -> str -> exn + str)
        (secret alg token : str) :
  enc (payload w) secret alg = inr token ->
  stdout (snd (run w enc secret alg))
  = [ banner;
      "🔐 FRESH JWT TOKEN GENERATED";
      banner;
      "Token: " ++ token;
      "";
      "📅 Token Details:";
      "• Issued At: " ++ to_str (issued_at w);
      "• Expires At: " ++ to_str (expiration_time w);
      "• Valid For: 365 days";
      "• User: admin@xeno.com";
      "• Role: admin";
      "";
      "🚨 IMPORTANT:";
      "1. Use this as your ADMIN_JWT_TOKEN in Railway environment variables";
      "2. Make sure JWT_SECRET matches the secret_key used here";
      "3. Remove the old expired ADMIN_JWT_TOKEN from Railway";
      banner ]%string
  /\ banner = str_mul "=" 60
  /\ String.length banner = 60%nat
  /\ fst (run w enc secret alg) = Ok token.
Proof.
  intros H. rewrite (run_returns _ _ _ _ _ H). cbn [fst snd stdout].
  repeat split.
Qed.

Lemma C7_witness :
  stdout (snd (run utc_host Jwt.encode secret_key algorithm))
  = [ banner;
      "🔐 FRESH JWT TOKEN GENERATED";
      banner;
      "Token: " ++ JwtFacts.token_of (payload utc_host) secret_key;
      "";
      "📅 Token Details:";
      "• Issued At: " ++ to_str (issued_at utc_host);
      "• Expires At: " ++ to_str (expiration_time utc_host);
      "• Valid For: 365 days";
      "• User: admin@xeno.com";
      "• Role: admin";
      "";
      "🚨 IMPORTANT:";
      "1. Use this as your ADMIN_JWT_TOKEN in Railway environment variables";
      "2. Make sure JWT_SECRET matches the secret_key used here";
      "3. Remove the old expired ADMIN_JWT_TOKEN from Railway";
      banner ]%string
  /\ banner = str_mul "=" 60
  /\ String.length banner = 60%nat
  /\ fst (run utc_host Jwt.encode secret_key algorithm)
     = Ok (JwtFacts.token_of (payload utc_host) secret_key).
Proof.
  apply (C7_report_layout utc_host Jwt.encode secret_key algorithm).
  apply JwtFacts.encode_hs256. discriminate.
Defined.


(** C9, as stated, fails: the token minted on the UTC host is accepted
    under a secret that is not the shipped one, namely the shipped
    secret followed by a zero byte (HMAC fills a short key with zero
    bytes, so both secrets give the same tag). *)
Lemma C9_padded_secret_is_accepted :
  padded_secret <> secret_key
  /\ minted (help_py utc_host)
     = Some (JwtFacts.token_of (payload utc_host) secret_key)
  /\ Jwt.decode (JwtFacts.token_of (payload utc_host) secret_key)
                padded_secret [algorithm]
     = inr (payload utc_host).
Proof.
  split; [discriminate|]. split.
  - unfold minted. now rewrite help_py_run.
  - vm_compute. reflexivity.
Qed.

(** C9, amended.  On every host, decoding the minted token under a
    secret whose HS256 tag over the token's signing input differs from
    the tag under the shipped secret fails with a signature
    mismatch. *)
Theorem C9_other_tag_is_rejected (w : world) (secret' token : str) :
  minted (help_py w) = Some token ->
  Jwt.sign secret' (Jwt.signing_input (payload w) algorithm)
  <> Jwt.sign secret_key (Jwt.signing_input (payload w) algorithm) ->
  Jwt.decode token secret' [algorithm] = inl Jwt.InvalidSignatureError.
Proof.
  intros Hm Htag.
  unfold minted in Hm. rewrite help_py_run in Hm. cbn [fst] in Hm.
  injection Hm as <-.
  change [algorithm] with ["HS256"%string].
  rewrite JwtFacts.decode_token_of.
  destruct (String.eqb_spec
              (Jwt.sign secret_key (Jwt.signing_input (payload w) "HS256"))
              (Jwt.sign secret' (Jwt.signing_input (payload w) "HS256")))
    as [Heq|_]; [|reflexivity].
  exfalso. apply Htag. symmetry. exact Heq.
Qed.

Lemma C9_witness :
  Jwt.decode (JwtFacts.token_of (payload utc_host) secret_key)
             "not the secret" [algorithm]
  = inl Jwt.InvalidSignatureError.
Proof.
  apply (C9_other_tag_is_rejected utc_host "not the secret").
  - unfold minted. now rewrite help_py_run.
  - vm_compute. discriminate.
Defined.





End Properties.

(* ================================================================== *)
(** * Further properties of the script *)

Module Coverage.

Import Help Datetime Spec Scenario Strict StrictHelp StrictScenario StrictFacts.
Local Open Scope list_scope.

Lemma claims_in_float_range h :
  clock_in_range h ->
  0 <= mktime (env h) (Z.of_N (clock (env h) 0) / us_per_s + validity_window)
    < 2 ^ 34 ->
  0 <= mktime (env h) (Z.of_N (clock (env h) 1) / us_per_s) < 2 ^ 34 ->
  payload h = Some (claims_of h)
  /\ claim_int (claims_of h) "exp"
     = Some (mktime (env h)
               (Z.of_N (clock (env h) 0) / us_per_s + validity_window))
  /\ claim_int (claims_of h) "iat"
     = Some (mktime (env h) (Z.of_N (clock (env h) 1) / us_per_s)).
Proof.
  intros Hr He Hi. split; [now apply payload_in_range|].
  unfold claims_of, expiry_of, issue_of.
  cbn [claim_int lookup String.eqb Ascii.eqb Bool.eqb].
  assert (E : (Z.of_N (clock (env h) 0) + delta_us (timedelta_days 365))
              / us_per_s
              = Z.of_N (clock (env h) 0) / us_per_s + validity_window).
  { unfold validity_window, timedelta_days, us_per_s. cbn [delta_us].
    rewrite Z.div_add by lia. reflexivity. }
  rewrite !int_timestamp_exact by (rewrite ?E; assumption).
  now rewrite E.
Qed.

(** Lines 17-26.  The microseconds of the two readings never reach the
    claims: with the clock inside the range of [datetime], and where the
    host's conversions are not negative and below [2 ^ 34] seconds (the
    range in which the double of [.timestamp()] still separates
    microseconds), exp is the conversion of the first reading's whole
    seconds moved by 365 days and iat is the conversion of the second
    reading's whole seconds. *)
Theorem claims_drop_microseconds (h : host) :
  clock_in_range h ->
  0 <= mktime (env h) (Z.of_N (clock (env h) 0) / us_per_s + validity_window)
    < 2 ^ 34 ->
  0 <= mktime (env h) (Z.of_N (clock (env h) 1) / us_per_s) < 2 ^ 34 ->
  exists p,
    payload h = Some p
    /\ claim_int p "exp"
       = Some (mktime (env h)
                 (Z.of_N (clock (env h) 0) / us_per_s + validity_window))
    /\ claim_int p "iat"
       = Some (mktime (env h) (Z.of_N (clock (env h) 1) / us_per_s)).
Proof.
  intros Hr He Hi. exists (claims_of h).
  now apply claims_in_float_range.
Qed.

Lemma claims_drop_microseconds_witness :
  exists p,
    payload ticking_utf8_host = Some p
    /\ claim_int p "exp" = Some (1704067200 + validity_window)
    /\ claim_int p "iat" = Some 1704067201.
Proof.
  apply (claims_drop_microseconds ticking_utf8_host).
  - split; vm_compute; discriminate.
  - split; vm_compute; [discriminate | reflexivity].
  - split; vm_compute; [discriminate | reflexivity].
Defined.

(** Lines 17-27.  On a host that keeps a fixed offset from UTC, with a
    clock that does not go back between the two reads, inside the range
    of [datetime], and timestamps that are not negative and below
    [2 ^ 34] seconds: both claims are the readings' whole seconds moved
    by the offset, the window is never longer than 365 days, and it is
    short by exactly the number of whole seconds the clock passed
    between the reads. *)
Theorem window_on_fixed_offset_host (h : host) (east : Z) :
  clock_in_range h ->
  (forall x, mktime (env h) x = x - east) ->
  east <= Z.of_N (clock (env h) 0) / us_per_s ->
  (clock (env h) 0 <= clock (env h) 1)%N ->
  Z.of_N (clock (env h) 1) / us_per_s + validity_window - east < 2 ^ 34 ->
  exists p e i,
    payload h = Some p
    /\ claim_int p "exp" = Some e
    /\ claim_int p "iat" = Some i
    /\ i = Z.of_N (clock (env h) 1) / us_per_s - east
    /\ e = Z.of_N (clock (env h) 0) / us_per_s + validity_window - east
    /\ e - i <= validity_window
    /\ validity_window - (e - i)
       = Z.of_N (clock (env h) 1) / us_per_s
         - Z.of_N (clock (env h) 0) / us_per_s.
Proof.
  intros Hr Hz Hpos Hmono Hhi.
  assert (Hdiv : Z.of_N (clock (env h) 0) / us_per_s
                 <= Z.of_N (clock (env h) 1) / us_per_s)
    by (apply Z.div_le_mono; [unfold us_per_s|]; lia).
  assert (Hw : validity_window = 31536000) by reflexivity.
  destruct (claims_in_float_range h Hr) as (Hp & He & Hi).
  - rewrite Hz. lia.
  - rewrite Hz. lia.
  - rewrite Hz in He, Hi.
    exists (claims_of h). eexists. eexists.
    split; [exact Hp|]. split; [exact He|]. split; [exact Hi|].
    repeat split; lia.
Qed.

Lemma window_on_fixed_offset_host_witness :
  exists p e i,
    payload cet_utf8_host = Some p
    /\ claim_int p "exp" = Some e
    /\ claim_int p "iat" = Some i
    /\ i = Z.of_N (clock cet_host 1) / us_per_s - 3600
    /\ e = Z.of_N (clock cet_host 0) / us_per_s + validity_window - 3600
    /\ e - i <= validity_window
    /\ validity_window - (e - i)
       = Z.of_N (clock cet_host 1) / us_per_s
         - Z.of_N (clock cet_host 0) / us_per_s.
Proof.
  apply (window_on_fixed_offset_host cet_utf8_host 3600).
  - split; vm_compute; discriminate.
  - reflexivity.
  - vm_compute. discriminate.
  - vm_compute. discriminate.
  - vm_compute. reflexivity.
Defined.

(** Lines 9-14, 21-24, 30, 41-42.  The lookups in [user_data] never
    raise: a KeyError or a SigningFailure that ends a run was raised by
    the signing primitive at line 30, on the claims mapping, before
    anything was printed. *)
Theorem only_signing_raises_script_errors
        (h : host) (enc : dict -> str -> str -> exn + str)
        (secret alg : str) (e : exn) (st : state) :
  run h enc secret alg = (Raise (Of e), st) ->
  exists p,
    payload h = Some p
    /\ enc p secret alg = inl e
    /\ st = {| reads := 2; stdout := [] |}.
Proof.
  intros E.
  pose proof (run_outcome h enc secret alg) as O. rewrite E in O.
  inversion O as [e' n _ _ [[w0 He]|[w0 He]] | e' Hr Ee | |];
    subst; try discriminate.
  exists (claims_of h). split; [now apply payload_in_range|]. now split.
Qed.

Lemma only_signing_raises_script_errors_witness :
  exists p,
    payload utf8_host = Some p
    /\ Jwt.encode p secret_key "ROT13"
       = inl (SigningFailure "Algorithm not supported")
    /\ {| reads := 2; stdout := [] |} = {| reads := 2; stdout := [] |}.
Proof.
  apply (only_signing_raises_script_errors utf8_host Jwt.encode secret_key "ROT13").
  vm_compute. reflexivity.
Defined.


End Coverage.
